(** * skelenode-dispatcher: the dispatcher of index.js and the connection
    factory of lib/redis.js, embedded as state-passing functions.

    The module keeps process-wide variables ([DEBUG_DISPATCHER],
    [redisPort], [redisHost], [redisPassword], [redisPublisher]) and hangs a
    [dispatcher] property on caller objects and on redis clients.  Objects
    are therefore kept in a store indexed by identity; what the code aliases
    (the [_callbacks] object shared by a context and its client, the array
    held in a local variable while callbacks run) is aliased here too. *)

From Stdlib Require Import String.
From stdpp Require Import base option list gmap strings pretty.

Open Scope string_scope.
Open Scope list_scope.

(** ** JavaScript values *)

(** Identity of an object (a context, a redis client, an object literal, an
    array, a function). *)
Definition loc := nat.

(** Primitive values.  Event names are documented as strings; [undefined]
    is what a missing argument evaluates to. *)
Inductive prim :=
| PUndefined
| PNull
| PBool (b : bool)
| PStr (s : string).

Inductive value :=
| VPrim (p : prim)
| VObj (o : loc).

#[global] Instance prim_eq_dec : EqDecision prim.
Proof. solve_decision. Defined.

#[global] Instance value_eq_dec : EqDecision value.
Proof. solve_decision. Defined.

Definition undefined : value := VPrim PUndefined.
Definition null : value := VPrim PNull.
Definition false_ : value := VPrim (PBool false).

(** ToBoolean: what [!x] and [if (x)] look at. *)
Definition truthy_prim (p : prim) : bool :=
  match p with
  | PUndefined | PNull => false
  | PBool b => b
  | PStr s => negb (String.eqb s "")
  end.

Definition truthy (v : value) : bool :=
  match v with
  | VPrim p => truthy_prim p
  | VObj _ => true
  end.

(** [undefined] and [null]: the values a property cannot be read from. *)
Definition nullish (v : value) : bool :=
  match v with
  | VPrim PUndefined | VPrim PNull => true
  | _ => false
  end.

(** ToString of a primitive: used for ['...' + event] and for the property
    key in [_callbacks[event]]. *)
Definition to_string (p : prim) : string :=
  match p with
  | PUndefined => "undefined"
  | PNull => "null"
  | PBool true => "true"
  | PBool false => "false"
  | PStr s => s
  end.

(** [a === b] on the values above. *)
Definition strict_eq (a b : value) : bool := bool_decide (a = b).

(** ** Objects of the store *)

(** The object literals built by [attach].  The one put on the context has
    all three fields, and [subscribe] and [unsubscribe] as methods: they are
    the functions below, called with the object as [this].  The one put on
    the client has no [_client] (reading it gives [undefined]).  The code
    never assigns to the fields, so the objects are kept by value. *)
Record dispatcher := Dispatcher {
  _callbacks : loc;
  _client : value;
  _context : value;
}.

#[global] Instance dispatcher_eq_dec : EqDecision dispatcher.
Proof. solve_decision. Defined.

(** A [dispatcher] property that has been assigned: [null] or an object.  A
    property never assigned reads as [undefined], [None] below. *)
Inductive slot :=
| SNull
| SObj (d : dispatcher).

Definition truthy_slot (p : option slot) : bool :=
  match p with
  | Some (SObj _) => true
  | _ => false
  end.

(** Commands handed to a redis client; the client queues and sends them. *)
Inductive request :=
| Auth (password : value)
| Subscribe (event : prim)
| Unsubscribe (event : prim)
| Publish (event : prim) (payload : string)
| Quit.

(** Listeners registered with [client.on]. *)
Inductive listener :=
| LogError
| HandleMessage.

(** The options lib/redis.js passes to [redis.createClient]. *)
Record options := Options {
  connect_timeout : value;
  max_attempts : value;
  retry_max_delay : nat;
  enable_offline_queue : bool;
}.

Record client := Client {
  c_port : value;
  c_host : value;
  c_options : options;
  c_listeners : list (string * listener);
  c_requests : list request;
}.

(** The client after it was handed one more command. *)
Definition push_request (cl : client) (r : request) : client :=
  Client (c_port cl) (c_host cl) (c_options cl) (c_listeners cl) (c_requests cl ++ [r]).

(** The client after [on(name, l)]. *)
Definition add_listener (cl : client) (name : string) (l : listener) : client :=
  Client (c_port cl) (c_host cl) (c_options cl) (c_listeners cl ++ [(name, l)]) (c_requests cl).

(** One callback invocation: [f.call(receiver, args...)]. *)
Record call := Call {
  callee : loc;
  receiver : value;
  arguments : list value;
}.

(** ** Program state *)

Record state := State {
  DEBUG_DISPATCHER : value;
  redisPort : value;
  redisHost : value;
  redisPassword : value;
  redisPublisher : value;
  (** the [dispatcher] property of every object that has one *)
  dispatchers : gmap loc slot;
  (** the redis clients *)
  clients : gmap loc client;
  (** own properties of the [_callbacks] objects: event name to array *)
  objects : gmap loc (gmap string loc);
  (** contents of the arrays *)
  arrays : gmap loc (list value);
  (** next unused identity *)
  next_loc : loc;
  (** callback invocations made so far, oldest first *)
  calls : list call;
}.

(** The module right after it is loaded: [DEBUG_DISPATCHER = true], the
    other variables declared and not assigned. *)
Definition initial_state : state :=
  State (VPrim (PBool true)) undefined undefined undefined undefined
        ∅ ∅ ∅ ∅ 0 [].

Definition set_config (debug port host password : value) (s : state) : state :=
  State debug port host password (redisPublisher s)
        (dispatchers s) (clients s) (objects s) (arrays s) (next_loc s) (calls s).

Definition set_redisPublisher (p : value) (s : state) : state :=
  State (DEBUG_DISPATCHER s) (redisPort s) (redisHost s) (redisPassword s) p
        (dispatchers s) (clients s) (objects s) (arrays s) (next_loc s) (calls s).

Definition set_dispatchers (f : gmap loc slot → gmap loc slot) (s : state) : state :=
  State (DEBUG_DISPATCHER s) (redisPort s) (redisHost s) (redisPassword s) (redisPublisher s)
        (f (dispatchers s)) (clients s) (objects s) (arrays s) (next_loc s) (calls s).

Definition set_clients (f : gmap loc client → gmap loc client) (s : state) : state :=
  State (DEBUG_DISPATCHER s) (redisPort s) (redisHost s) (redisPassword s) (redisPublisher s)
        (dispatchers s) (f (clients s)) (objects s) (arrays s) (next_loc s) (calls s).

Definition set_objects (f : gmap loc (gmap string loc) → gmap loc (gmap string loc))
    (s : state) : state :=
  State (DEBUG_DISPATCHER s) (redisPort s) (redisHost s) (redisPassword s) (redisPublisher s)
        (dispatchers s) (clients s) (f (objects s)) (arrays s) (next_loc s) (calls s).

Definition set_arrays (f : gmap loc (list value) → gmap loc (list value)) (s : state) : state :=
  State (DEBUG_DISPATCHER s) (redisPort s) (redisHost s) (redisPassword s) (redisPublisher s)
        (dispatchers s) (clients s) (objects s) (f (arrays s)) (next_loc s) (calls s).

Definition set_next_loc (n : loc) (s : state) : state :=
  State (DEBUG_DISPATCHER s) (redisPort s) (redisHost s) (redisPassword s) (redisPublisher s)
        (dispatchers s) (clients s) (objects s) (arrays s) n (calls s).

Definition set_calls (f : list call → list call) (s : state) : state :=
  State (DEBUG_DISPATCHER s) (redisPort s) (redisHost s) (redisPassword s) (redisPublisher s)
        (dispatchers s) (clients s) (objects s) (arrays s) (next_loc s) (f (calls s)).

(** ** Completions and the monad of the embedding *)

(** What can be thrown: the engine's TypeError, or any value ([throw v]). *)
Inductive error :=
| TypeError
| Thrown (v : value).

Inductive completion (A : Type) :=
| Return (a : A)
| Throw (e : error).
Arguments Return {A} a.
Arguments Throw {A} e.

(** A computation runs on the state and completes normally or abruptly; the
    state reached at a [throw] is kept, as effects before it are. *)
Definition M (A : Type) : Type := state → completion A * state.

Definition ret {A} (a : A) : M A := λ s, (Return a, s).

Definition throw {A} (e : error) : M A := λ s, (Throw e, s).

Definition bind {A B} (m : M A) (k : A → M B) : M B :=
  λ s, match m s with
       | (Return a, s') => k a s'
       | (Throw e, s') => (Throw e, s')
       end.

Definition gets {A} (f : state → A) : M A := λ s, (Return (f s), s).

Definition modify (f : state → state) : M unit := λ s, (Return tt, f s).

Notation "'let!' x ':=' m 'in' k" := (bind m (λ x, k))
  (at level 10, x pattern, m at level 100, k at level 200).
Notation "m '>>' k" := (bind m (λ _, k))
  (at level 100, k at level 200, right associativity).

(** ** Primitive operations on the store *)

(** [log.info(msg)]: bunyan writes the line to its own stream, which is not
    part of the state; what remains of a debug line is the evaluation of its
    argument, done by the caller before this is reached. *)
Definition log_info (msg : string) : M unit := ret tt.

Definition log_error (err : value) : M unit := ret tt.

(** A fresh identity. *)
Definition fresh : M loc :=
  λ s, (Return (next_loc s), set_next_loc (S (next_loc s)) s).

(** [v.dispatcher] as an rvalue.  Reading a property of [undefined] or
    [null] is a TypeError; a primitive has no such property. *)
Definition get_dispatcher (v : value) : M (option slot) :=
  match v with
  | VPrim PUndefined | VPrim PNull => throw TypeError
  | VPrim _ => ret None
  | VObj o => gets (λ s, dispatchers s !! o)
  end.

(** [v.dispatcher = x].  The file is in strict mode, so the assignment to a
    primitive is a TypeError as well. *)
Definition set_dispatcher (v : value) (x : slot) : M unit :=
  match v with
  | VPrim _ => throw TypeError
  | VObj o => modify (set_dispatchers (insert o x))
  end.

(** [v.dispatcher.<field>]: the property must hold an object. *)
Definition get_dispatcher_obj (v : value) : M dispatcher :=
  let! p := get_dispatcher v in
  match p with
  | Some (SObj d) => ret d
  | _ => throw TypeError
  end.

(** A method call on a redis client that hands it a command; on anything
    that is not a client the method is missing, a TypeError. *)
Definition client_request (c : value) (r : request) : M unit :=
  match c with
  | VPrim _ => throw TypeError
  | VObj o =>
      λ s, match clients s !! o with
           | Some cl => (Return tt, set_clients (insert o (push_request cl r)) s)
           | None => (Throw TypeError, s)
           end
  end.

(** [client.on(name, listener)]. *)
Definition client_on (c : loc) (name : string) (l : listener) : M unit :=
  λ s, match clients s !! c with
       | Some cl => (Return tt, set_clients (insert c (add_listener cl name l)) s)
       | None => (Throw TypeError, s)
       end.

(** What an object made by the literal [{}] inherits from
    [Object.prototype]: functions, each with the [length] it has, and under
    [__proto__] the prototype object itself.  None of them has a [push] or
    indexed properties, and all of them are truthy. *)
Inductive inherited :=
| IFunction (length : nat)
| IPrototype.

Definition Object_prototype : gmap string inherited :=
  list_to_map
    [ ("constructor", IFunction 1);
      ("toString", IFunction 0);
      ("toLocaleString", IFunction 0);
      ("valueOf", IFunction 0);
      ("hasOwnProperty", IFunction 1);
      ("isPrototypeOf", IFunction 1);
      ("propertyIsEnumerable", IFunction 1);
      ("__defineGetter__", IFunction 2);
      ("__defineSetter__", IFunction 2);
      ("__lookupGetter__", IFunction 1);
      ("__lookupSetter__", IFunction 1);
      ("__proto__", IPrototype) ].

(** What [obj[key]] finds: the object stored under an own property, or a
    member of [Object.prototype]. *)
Inductive property :=
| Own (a : loc)
| Inherited (i : inherited).

(** [obj[key]] on a [_callbacks] object: an own property first, then the
    prototype; [None] is [undefined]. *)
Definition get_property (obj : loc) (key : string) : M (option property) :=
  gets (λ s, match default ∅ (objects s !! obj) !! key with
             | Some a => Some (Own a)
             | None => Inherited <$> Object_prototype !! key
             end).

(** [obj[key] = a]. *)
Definition set_property (obj : loc) (key : string) (a : loc) : M unit :=
  modify (set_objects (λ os, <[obj := <[key := a]> (default ∅ (os !! obj))]> os)).

(** The object literal [{}]. *)
Definition new_object : M loc :=
  let! o := fresh in
  modify (set_objects (insert o ∅)) >>
  ret o.

(** The array literal [[ v ]]. *)
Definition new_array (l : list value) : M loc :=
  let! a := fresh in
  modify (set_arrays (insert a l)) >>
  ret a.

(** [a.push(v)]; an object that is not an array has no [push]. *)
Definition array_push (a : loc) (v : value) : M unit :=
  λ s, match arrays s !! a with
       | Some l => (Return tt, set_arrays (insert a (l ++ [v])) s)
       | None => (Throw TypeError, s)
       end.

(** [a.length]: [None] is [undefined], for an object that is not an array. *)
Definition array_length (a : loc) : M (option nat) :=
  gets (λ s, length <$> arrays s !! a).

(** [a[i]]: [undefined] out of range. *)
Definition array_get (a : loc) (i : nat) : M value :=
  gets (λ s, default undefined (default [] (arrays s !! a) !! i)).

(** [a.splice(i, 1)]. *)
Definition array_splice1 (a : loc) (i : nat) : M unit :=
  λ s, match arrays s !! a with
       | Some l => (Return tt, set_arrays (insert a (delete i l)) s)
       | None => (Throw TypeError, s)
       end.

(** [if (DEBUG_DISPATCHER) log.info(msg)] for a message whose evaluation
    cannot raise. *)
Definition debug_info (msg : string) : M unit :=
  let! debug := gets DEBUG_DISPATCHER in
  if truthy debug then log_info msg else ret tt.

(** ** lib/redis.js *)

(** Modelled from the spec: the redis package's
    [createClient(port, host, options)], which is not part of the
    repository.  The spec has it return a connection whose errors are logged
    and never propagate to callers; here it gives a new client object, with
    nothing registered or sent yet. *)
Definition redis_createClient (port host : value) (opts : options) : M loc :=
  let! c := fresh in
  modify (set_clients (insert c (Client port host opts [] []))) >>
  ret c.

Definition createClient (port host password : value) : M loc :=
  let! client := redis_createClient port host
                   {| connect_timeout := false_;
                      max_attempts := null;
                      retry_max_delay := 5000;
                      enable_offline_queue := true |} in
  client_on client "error" LogError >>
  (if truthy (VObj client) && truthy password
   then client_request (VObj client) (Auth password)
   else ret tt) >>
  ret client.

(** ** index.js *)

Definition start (this port host password debug : value) : M value :=
  modify (set_config debug port host password) >>
  let! publisher := createClient port host password in
  modify (set_redisPublisher (VObj publisher)) >>
  ret this.

Definition attached (context : value) : M bool :=
  let! debug := gets DEBUG_DISPATCHER in
  (if truthy debug
   then let! d := get_dispatcher context in
        log_info ("ATTACHED: " +:+ (if truthy_slot d then "yes" else "no"))
   else ret tt) >>
  if negb (truthy context) then ret false
  else
    let! d := get_dispatcher context in
    ret (truthy_slot d).

Definition attach (this context : value) : M value :=
  if negb (truthy context) then ret false_
  else
    let! is_attached := attached context in
    if is_attached then ret undefined
    else
      debug_info "ATTACHED" >>
      let! port := gets redisPort in
      let! host := gets redisHost in
      let! password := gets redisPassword in
      let! client := createClient port host password in
      let! callbacks := new_object in
      set_dispatcher context
        (SObj {| _callbacks := callbacks; _client := VObj client; _context := context |}) >>
      let! d := get_dispatcher_obj context in
      let! d' := get_dispatcher_obj context in
      set_dispatcher (VObj client)
        (SObj {| _callbacks := _callbacks d; _client := undefined; _context := _context d' |}) >>
      client_on client "message" HandleMessage >>
      ret this.

(** [subscribe] and [unsubscribe] are called as methods of the object put on
    the context, which is their [this]; [None] stands for the [undefined] of
    a bare [return;]. *)
Definition subscribe (this : dispatcher) (event : prim) (callback : value) : M dispatcher :=
  debug_info ("SUBSCRIBE: " +:+ to_string event) >>
  if negb (truthy_prim event) || negb (truthy callback) then ret this
  else
    let! existing := get_property (_callbacks this) (to_string event) in
    match existing with
    | Some (Own a) => array_push a callback
    | Some (Inherited _) =>
        (* truthy, and without a [push] *)
        throw TypeError
    | None =>
        let! a := new_array [callback] in
        set_property (_callbacks this) (to_string event) a
    end >>
    client_request (_client this) (Subscribe event) >>
    ret this.

Definition publish (this : value) (event : prim) : M value :=
  debug_info ("PUBLISH: " +:+ to_string event) >>
  if negb (truthy_prim event) then ret undefined
  else
    let! publisher := gets redisPublisher in
    client_request publisher (Publish event "") >>
    ret this.

(** The loop of [unsubscribe]: [for (i = n - 1; i >= 0; i--)], splicing the
    array in place. *)
Fixpoint unsubscribe_loop (callbacks : loc) (callback : value) (n : nat) : M unit :=
  match n with
  | 0 => ret tt
  | S i =>
      let! entry := array_get callbacks i in
      (if strict_eq entry callback then array_splice1 callbacks i else ret tt) >>
      unsubscribe_loop callbacks callback i
  end.

Definition unsubscribe (this : dispatcher) (event : prim) (callback : value)
    : M (option dispatcher) :=
  debug_info ("UNSUBSCRIBE: " +:+ to_string event) >>
  if negb (truthy_prim event) || negb (truthy callback) then ret None
  else
    let! callbacks := get_property (_callbacks this) (to_string event) in
    match callbacks with
    | Some (Own a) =>
        let! len := array_length a in
        (* on an object without [length], [undefined - 1 >= 0] is false *)
        unsubscribe_loop a callback (default 0 len)
    | Some (Inherited _) =>
        (* [callbacks[i]] is [undefined] at every index and the callback is
           truthy: the loop splices nothing *)
        ret tt
    | None => ret tt
    end >>
    let! empty :=
      match callbacks with
      | Some (Own a) => let! len := array_length a in ret (bool_decide (len = Some 0))
      | Some (Inherited (IFunction n)) => ret (bool_decide (n = 0))
      | Some (Inherited IPrototype) => ret false
      | None => ret true
      end in
    (if empty then client_request (_client this) (Unsubscribe event) else ret tt) >>
    ret (Some this).

Definition detach (this context : value) : M value :=
  debug_info "DETACHED." >>
  if negb (truthy context) then ret undefined
  else
    let! is_attached := attached context in
    if negb is_attached then ret undefined
    else
      let! d := get_dispatcher_obj context in
      client_request (_client d) Quit >>
      let! d := get_dispatcher_obj context in
      set_dispatcher (_client d) SNull >>
      set_dispatcher context SNull >>
      ret this.

(** The string [handleMessage] throws. *)
Definition payload_error : value :=
  VPrim (PStr "A message payload was sent across Redis. We intentionally do not support this to avoid security issues.").

Section Router.

(** The functions of the program that uses the dispatcher: what the
    object [f], called with a receiver and arguments, does to the state,
    and whether it returns or throws.  [None]: [f] is not callable. *)
Variable code : loc → option (value → list value → M value).

(** [f.call(receiver, args)]. *)
Definition invoke (f : value) (recv : value) (args : list value) : M value :=
  match f with
  | VPrim _ => throw TypeError
  | VObj o =>
      match code o with
      | Some body =>
          modify (set_calls (λ cs, cs ++ [Call o recv args])) >>
          body recv args
      | None => throw TypeError
      end
  end.

(** The loop of [handleMessage]: [for (i = 0; i < iL; i++)] with [iL]
    read once before; [n] is [iL - i].  [callbacks] is the array the local
    variable refers to, [this.dispatcher] is read again every time. *)
Fixpoint dispatch_loop (this : value) (callbacks : loc) (event : prim)
    (i n : nat) : M unit :=
  match n with
  | 0 => ret tt
  | S n' =>
      let! f := array_get callbacks i in
      if nullish f then throw TypeError
      else
        let! d := get_dispatcher_obj this in
        invoke f (_context d) [VPrim event] >>
        dispatch_loop this callbacks event (S i) n'
  end.

Definition handleMessage (this : value) (event message : prim) : M unit :=
  debug_info ("MESSAGE: " +:+ to_string event) >>
  if negb (truthy_prim event) then ret tt
  else if truthy_prim message && negb (bool_decide (message = PStr ""))
  then throw (Thrown payload_error)
  else
    let! d := get_dispatcher_obj this in
    let! callbacks := get_property (_callbacks d) (to_string event) in
    let! len :=
      match callbacks with
      | Some (Own a) => array_length a
      | Some (Inherited (IFunction n)) => ret (Some n)
      | Some (Inherited IPrototype) => ret None
      | None => ret None
      end in
    debug_info ("MESSAGE: CALLBACK LENGTH: " +:+
                match len with Some n => pretty n | None => "undefined" end) >>
    match callbacks with
    | Some (Own a) =>
        (* on an object without [length], [0 < undefined] is false *)
        dispatch_loop this a event 0 (default 0 len)
    | Some (Inherited _) =>
        (* [callbacks[0]] is [undefined]: the first turn of the loop, when
           there is one, fails at [.call] *)
        match len with
        | Some (S _) => throw TypeError
        | _ => ret tt
        end
    | None => ret tt
    end.

(** The client emits ['message'] to its listeners, with itself as
    [this]. *)
Fixpoint emit_message (c : loc) (ls : list (string * listener))
    (event message : prim) : M unit :=
  match ls with
  | [] => ret tt
  | (name, l) :: ls' =>
      (if String.eqb name "message"
       then match l with
            | HandleMessage => handleMessage (VObj c) event message
            | LogError => log_error (VPrim event)
            end
       else ret tt) >>
      emit_message c ls' event message
  end.

Definition deliver (c : loc) (event message : prim) : M unit :=
  let! cl := gets (λ s, clients s !! c) in
  match cl with
  | Some cl => emit_message c (c_listeners cl) event message
  | None => ret tt
  end.

End Router.


(** ** Reading the state in statements *)

(** The list of callbacks registered for [event] in a [_callbacks] object,
    when there is one. *)
Definition event_list (s : state) (callbacks : loc) (event : prim) : option (list value) :=
  a ← default ∅ (objects s !! callbacks) !! to_string event;
  arrays s !! a.

(** The property for [event], when the [_callbacks] object has one, holds an
    array (which is all [subscribe] ever puts there). *)
Definition registry_ok (s : state) (callbacks : loc) (event : prim) : Prop :=
  ∀ a, default ∅ (objects s !! callbacks) !! to_string event = Some a →
       is_Some (arrays s !! a).

(** Every property of every [_callbacks] object holds an array. *)
Definition wf_registry (s : state) : Prop :=
  ∀ m props key a,
    objects s !! m = Some props → props !! key = Some a → is_Some (arrays s !! a).

(** A computation keeps a property of the state, whether it returns or
    throws. *)
Definition preserves {A} (I : state → Prop) (m : M A) : Prop :=
  ∀ s, I s → I (m s).2.

(** The commands a client was handed so far, oldest first. *)
Definition requests_of (s : state) (c : loc) : list request :=
  default [] (c_requests <$> clients s !! c).

(** What [attach] sets up between a context and its subscriber connection:
    each refers to the other's side through its [dispatcher] property, and
    both hold the same [_callbacks] object. *)
Definition attachment (s : state) (context client callbacks : loc) : Prop :=
  dispatchers s !! context = Some (SObj (Dispatcher callbacks (VObj client) (VObj context))) ∧
  dispatchers s !! client = Some (SObj (Dispatcher callbacks undefined (VObj context))).

(** A callback that minds its own business during a delivery on [client]:
    it is a function, it returns, and it changes neither the array being
    walked, nor the client's [dispatcher] property, nor calls back into the
    dispatcher's listeners. *)
Definition undisturbed (client array : loc) (s s' : state) : Prop :=
  calls s' = calls s ∧
  arrays s' !! array = arrays s !! array ∧
  dispatchers s' !! client = dispatchers s !! client.

Definition well_behaved (code : loc → option (value → list value → M value))
    (client array : loc) (f : loc) : Prop :=
  ∃ body, code f = Some body ∧
    ∀ recv args s, ∃ v s', body recv args s = (Return v, s') ∧ undisturbed client array s s'.

(** ** A small program, for the examples *)

(** The program owns four objects before it touches the dispatcher: the
    module's [exports] (the [this] of [dispatcher.attach(...)] and the
    like), a context and two functions. *)
Definition exports : value := VObj 0.
Definition ctxA : value := VObj 1.
Definition cb1 : value := VObj 2.
Definition cb2 : value := VObj 3.

Definition loaded : state := set_next_loc 4 initial_state.

(** [cb1] throws, [cb2] returns at once. *)
Definition example_code (f : loc) : option (value → list value → M value) :=
  match f with
  | 2 => Some (λ _ _, throw (Thrown (VPrim (PStr "boom"))))
  | 3 => Some (λ _ _, ret undefined)
  | _ => None
  end.

(** Every function returns at once. *)
Definition silent_code (f : loc) : option (value → list value → M value) :=
  Some (λ _ _, ret undefined).

(** [start("6379", "localhost", undefined, false)]. *)
Definition started : state :=
  (start exports (VPrim (PStr "6379")) (VPrim (PStr "localhost")) undefined false_ loaded).2.

(** ... then [attach(ctxA)]. *)
Definition attached_state : state := (attach exports ctxA started).2.

(** The object [attach] put on [ctxA], the connection it opened and the
    [_callbacks] object it made. *)
Definition ctxA_client : loc := 5.
Definition ctxA_callbacks : loc := 6.
Definition ctxA_dispatcher : dispatcher := Dispatcher ctxA_callbacks (VObj ctxA_client) ctxA.

(** ... then [ctxA.dispatcher.subscribe("x", cb1)] and [subscribe("x", cb2)]. *)
Definition subscribed_state : state :=
  (subscribe ctxA_dispatcher (PStr "x") cb2
     (subscribe ctxA_dispatcher (PStr "x") cb1 attached_state).2).2.

(** ... then [unsubscribe("x", cb1)]. *)
Definition unsubscribed_state : state :=
  (unsubscribe ctxA_dispatcher (PStr "x") cb1 subscribed_state).2.

(** ** Descriptions of states, for the further properties *)

(** The connection [createClient] hands back: error listener registered,
    [auth] sent when there is a password. *)
Definition new_client (port host password : value) : client :=
  Client port host (Options false_ null 5000 true) [("error", LogError)]
    (if truthy password then [Auth password] else []).

(** The subscriber connection of a context, as [attach] leaves it. *)
Definition subscriber_client (s : state) : client :=
  add_listener (new_client (redisPort s) (redisHost s) (redisPassword s))
    "message" HandleMessage.

(** The state [attach] leaves when it attaches the object [o]: the
    connection is the object [next_loc s], the [_callbacks] object the one
    after it. *)
Definition after_attach (o : loc) (s : state) : state :=
  set_clients (insert (next_loc s) (subscriber_client s))
    (set_dispatchers
       (λ ds, <[next_loc s := SObj (Dispatcher (S (next_loc s)) undefined (VObj o))]>
                (<[o := SObj (Dispatcher (S (next_loc s)) (VObj (next_loc s)) (VObj o))]> ds))
       (set_objects (insert (S (next_loc s)) ∅)
          (set_next_loc (S (S (next_loc s))) s))).

(** The state [detach] leaves when it detaches the object [o] from the
    connection [c]. *)
Definition after_detach (o c : loc) (cl : client) (s : state) : state :=
  set_dispatchers (insert o SNull)
    (set_dispatchers (insert c SNull)
       (set_clients (insert c (push_request cl Quit)) s)).

(** The arrays of the registry are allocated, below the next identity, and
    no two properties (of one [_callbacks] object or of two) hold the same
    array. *)
Definition heap_ok (s : state) : Prop :=
  wf_registry s ∧
  (∀ a, is_Some (arrays s !! a) → (a < next_loc s)%nat) ∧
  (∀ m m' props props' key key' a,
     objects s !! m = Some props → props !! key = Some a →
     objects s !! m' = Some props' → props' !! key' = Some a →
     m = m' ∧ key = key').

(** The state [st] differs from [s], in the registry, at most by the
    contents of the array [a]. *)
Definition touches_only (s : state) (a : loc) (st : state) : Prop :=
  objects st = objects s ∧ ∀ a', a' ≠ a → arrays st !! a' = arrays s !! a'.

(** ** Callbacks that use the dispatcher while they are being called *)

(** The event a callback is called with (its first argument). *)
Definition arg_event (args : list value) : prim :=
  match args with
  | VPrim e :: _ => e
  | _ => PUndefined
  end.

(** [function (e) { this.dispatcher.subscribe(e, h); }] *)
Definition subscribing_callback (h : value) : value → list value → M value :=
  λ recv args,
    let! d := get_dispatcher_obj recv in
    subscribe d (arg_event args) h >>
    ret undefined.

(** [function f(e) { this.dispatcher.unsubscribe(e, f); }] *)
Definition unsubscribing_callback (f : loc) : value → list value → M value :=
  λ recv args,
    let! d := get_dispatcher_obj recv in
    unsubscribe d (arg_event args) (VObj f) >>
    ret undefined.

(** [cb1] subscribes [cb2] again, [cb2] returns at once. *)
Definition subscribing_code (f : loc) : option (value → list value → M value) :=
  match f with
  | 2 => Some (subscribing_callback cb2)
  | _ => Some (λ _ _, ret undefined)
  end.

(** [cb1] unsubscribes itself, [cb2] returns at once. *)
Definition unsubscribing_code (f : loc) : option (value → list value → M value) :=
  match f with
  | 2 => Some (unsubscribing_callback 2)
  | _ => Some (λ _ _, ret undefined)
  end.
(** ** Running computations: equations of the monad *)

Lemma bind_return {A B} (m : M A) (k : A → M B) s a s' :
  m s = (Return a, s') → bind m k s = k a s'.
Proof. intros H. unfold bind. by rewrite H. Qed.

Lemma bind_throw {A B} (m : M A) (k : A → M B) s e s' :
  m s = (Throw e, s') → bind m k s = (Throw e, s').
Proof. intros H. unfold bind. by rewrite H. Qed.

Lemma debug_info_run msg s : debug_info msg s = (Return tt, s).
Proof.
  unfold debug_info, bind, gets, log_info, ret.
  by destruct (truthy (DEBUG_DISPATCHER s)).
Qed.

(** Reading [v.dispatcher] never changes the state. *)
Lemma get_dispatcher_state v s : (get_dispatcher v s).2 = s.
Proof. by destruct v as [[| |b|x]|o]. Qed.

Lemma get_dispatcher_obj_state v s : (get_dispatcher_obj v s).2 = s.
Proof.
  unfold get_dispatcher_obj, bind.
  pose proof (get_dispatcher_state v s) as H.
  destruct (get_dispatcher v s) as [[p|e] s']; simpl in *; subst; [|done].
  by destruct p as [[|d]|].
Qed.

(** [attached] is a pure predicate as far as the state goes. *)
Lemma attached_pure context s : (attached context s).2 = s.
Proof.
  unfold attached, bind, gets.
  destruct (truthy (DEBUG_DISPATCHER s)).
  - pose proof (get_dispatcher_state context s) as H.
    destruct (get_dispatcher context s) as [[p|e] s']; simpl in *; subst; [|done].
    destruct (truthy context); simpl; [|done].
    pose proof (get_dispatcher_state context s) as H.
    by destruct (get_dispatcher context s) as [[q|e] s']; simpl in *; subst.
  - simpl. destruct (truthy context); simpl; [|done].
    pose proof (get_dispatcher_state context s) as H.
    by destruct (get_dispatcher context s) as [[q|e] s']; simpl in *; subst.
Qed.

(** On an object, [attached] is the truthiness of its [dispatcher]
    property, whatever the debug flag. *)
Lemma attached_object o s :
  attached (VObj o) s = (Return (truthy_slot (dispatchers s !! o)), s).
Proof.
  unfold attached, bind, gets. simpl.
  by destruct (truthy (DEBUG_DISPATCHER s)).
Qed.

(** With debugging off, a falsy context is answered [false]. *)
Lemma attached_falsy_quiet context s :
  truthy (DEBUG_DISPATCHER s) = false → truthy context = false →
  attached context s = (Return false, s).
Proof.
  intros Hd Hc. unfold attached, bind, gets. rewrite Hd. simpl. by rewrite Hc.
Qed.

(** What [attached] answers [true] to: an object whose [dispatcher]
    property holds an object. *)
Lemma attached_true_inv context s :
  (attached context s).1 = Return true →
  ∃ o d, context = VObj o ∧ dispatchers s !! o = Some (SObj d).
Proof.
  destruct context as [p|o].
  - unfold attached, bind, gets.
    destruct (truthy (DEBUG_DISPATCHER s)), p as [| |[]|x]; simpl; try done;
      destruct (negb (x =? "")); simpl; done.
  - rewrite attached_object. simpl. intros [= H].
    destruct (dispatchers s !! o) as [[|d]|] eqn:E; try done. by exists o, d.
Qed.

(** The example program reaches the states it is meant to reach. *)
Lemma attached_state_attachment :
  attachment attached_state 1 ctxA_client ctxA_callbacks.
Proof. split; vm_compute; reflexivity. Qed.

Lemma subscribed_state_list :
  event_list subscribed_state ctxA_callbacks (PStr "x") = Some [cb1; cb2].
Proof. vm_compute. reflexivity. Qed.

(** ** attached *)

(** With debugging on, the debug line reads [context.dispatcher] before the
    [!context] guard is reached. *)
Lemma attached_nullish_debug context s :
  truthy (DEBUG_DISPATCHER s) = true → nullish context = true →
  attached context s = (Throw TypeError, s).
Proof.
  intros Hd Hn. unfold attached, bind, gets. rewrite Hd.
  by destruct context as [[| |b|x]|o].
Qed.

(** C1 (the code departs from the claim): the module is loaded with
    [DEBUG_DISPATCHER = true], and in that state [attached(null)] and
    [attached(undefined)] raise a TypeError instead of returning [false]. *)
Theorem attached_nullish_raises_when_loaded :
  DEBUG_DISPATCHER initial_state = VPrim (PBool true) ∧
  attached null initial_state = (Throw TypeError, initial_state) ∧
  attached undefined initial_state = (Throw TypeError, initial_state).
Proof. repeat split. Qed.

(** ** handleMessage *)

Section RouterFacts.

Variable code : loc → option (value → list value → M value).

(** C10: a delivery whose event name is falsy returns at once, with the
    state (and so the record of callback invocations) as it was, whatever
    the payload is: the event check comes before the payload check. *)
Theorem handleMessage_falsy_event this event message s :
  truthy_prim event = false →
  handleMessage code this event message s = (Return tt, s).
Proof.
  intros He. unfold handleMessage.
  rewrite (bind_return _ _ _ _ _ (debug_info_run _ s)).
  by rewrite He.
Qed.

(** C2 (as amended): a delivery with a truthy event name and a non-empty
    string payload throws the payload error at once; the state is as it
    was, so no callback has been invoked. *)
Theorem handleMessage_payload_raises this event payload s :
  truthy_prim event = true → payload ≠ "" →
  handleMessage code this event (PStr payload) s = (Throw (Thrown payload_error), s).
Proof.
  intros He Hp. unfold handleMessage.
  rewrite (bind_return _ _ _ _ _ (debug_info_run _ s)).
  rewrite He. simpl.
  destruct (String.eqb_spec payload ""); [done|]. simpl.
  rewrite bool_decide_eq_false_2; [done|]. by intros [= ->].
Qed.

End RouterFacts.

Lemma handleMessage_falsy_event_witness :
  handleMessage example_code (VObj ctxA_client) (PStr "") (PStr "payload") subscribed_state
  = (Return tt, subscribed_state).
Proof. apply (handleMessage_falsy_event example_code). reflexivity. Defined.

Lemma handleMessage_payload_raises_witness :
  handleMessage example_code (VObj ctxA_client) (PStr "x") (PStr "payload") subscribed_state
  = (Throw (Thrown payload_error), subscribed_state).
Proof.
  apply (handleMessage_payload_raises example_code); [reflexivity | discriminate].
Defined.

(** C2 (as stated, refuted): the payload ["payload"] is a non-empty string,
    yet the delivery on the event name [""] returns normally. *)
Lemma handleMessage_payload_not_raised :
  "payload" ≠ "" ∧
  (handleMessage example_code (VObj ctxA_client) (PStr "") (PStr "payload") subscribed_state).1
  = Return tt.
Proof. split; [discriminate | vm_compute; reflexivity]. Qed.

(** ** attach *)

(** C3: on a context that [attached] answers [true] for, [attach] returns
    with the whole state as it was: no connection is opened, no
    [_callbacks] object is made, no [dispatcher] property is written. *)
Theorem attach_idempotent this context s :
  (attached context s).1 = Return true →
  attach this context s = (Return undefined, s).
Proof.
  intros H. destruct (attached_true_inv _ _ H) as (o & d & -> & Hd).
  unfold attach. simpl.
  rewrite (bind_return _ _ _ _ _ (attached_object o s)).
  by rewrite Hd.
Qed.

Lemma attach_idempotent_witness :
  attach exports ctxA attached_state = (Return undefined, attached_state).
Proof. apply attach_idempotent. vm_compute. reflexivity. Defined.

(** A falsy context is refused with [false]. *)
Lemma attach_falsy this context s :
  truthy context = false → attach this context s = (Return false_, s).
Proof. intros H. unfold attach. by rewrite H. Qed.

(** C9 (the code departs from the claim): the first [attach(ctxA)] returns
    the dispatcher, the second one returns [undefined], which is not the
    dispatcher it was called on. *)
Theorem attach_again_returns_undefined :
  (attach exports ctxA started).1 = Return exports ∧
  (attach exports ctxA attached_state).1 = Return undefined ∧
  undefined ≠ exports.
Proof. repeat split; [vm_compute; reflexivity.. | discriminate]. Qed.

(** ** publish *)

(** C7: with a falsy event [publish] returns with the state as it was; with
    a truthy one it hands the shared publisher connection exactly one
    command, the publication of the event with the payload [""]. *)
Theorem publish_spec this event s :
  (truthy_prim event = false → publish this event s = (Return undefined, s)) ∧
  (truthy_prim event = true →
   ∀ p cl, redisPublisher s = VObj p → clients s !! p = Some cl →
     publish this event s
     = (Return this, set_clients (insert p (push_request cl (Publish event ""))) s)).
Proof.
  split.
  - intros He. unfold publish.
    rewrite (bind_return _ _ _ _ _ (debug_info_run _ s)). by rewrite He.
  - intros He p cl Hp Hcl. unfold publish.
    rewrite (bind_return _ _ _ _ _ (debug_info_run _ s)). rewrite He. simpl.
    unfold bind, gets, client_request, ret. rewrite Hp, Hcl. done.
Qed.

Lemma publish_spec_witness :
  publish exports (PStr "") started = (Return undefined, started) ∧
  requests_of (publish exports (PStr "change:restaurant") started).2 4
  = [Publish (PStr "change:restaurant") ""].
Proof.
  split.
  - apply (publish_spec exports (PStr "") started). reflexivity.
  - erewrite (proj2 (publish_spec exports (PStr "change:restaurant") started) eq_refl 4);
      [| vm_compute; reflexivity | vm_compute; reflexivity ].
    vm_compute. reflexivity.
Defined.

(** ** detach *)

(** C8: [detach] returns with the state as it was on a nullish context and
    on one [attached] answers [false] for.  On a context holding the object
    [attach] put there it hands [quit] to the context's connection, sets
    the connection's [dispatcher] and the context's [dispatcher] to [null],
    and [attached] then answers [false]. *)
Theorem detach_spec this context s :
  (nullish context = true → detach this context s = (Return undefined, s)) ∧
  ((attached context s).1 = Return false → detach this context s = (Return undefined, s)) ∧
  (∀ o d c cl,
     context = VObj o → dispatchers s !! o = Some (SObj d) →
     _client d = VObj c → clients s !! c = Some cl →
     ∃ s', detach this context s = (Return this, s') ∧
           s' = set_dispatchers (insert o SNull)
                  (set_dispatchers (insert c SNull)
                     (set_clients (insert c (push_request cl Quit)) s)) ∧
           requests_of s' c = requests_of s c ++ [Quit] ∧
           dispatchers s' !! c = Some SNull ∧
           dispatchers s' !! o = Some SNull ∧
           attached context s' = (Return false, s')).
Proof.
  split; [|split].
  - intros Hn. unfold detach.
    rewrite (bind_return _ _ _ _ _ (debug_info_run _ s)).
    by destruct context as [[| |b|x]|o].
  - intros Ha. unfold detach.
    rewrite (bind_return _ _ _ _ _ (debug_info_run _ s)).
    destruct (truthy context); [|done]. simpl.
    pose proof (attached_pure context s) as Hs.
    destruct (attached context s) as [r s0] eqn:E. simpl in *. subst.
    by rewrite (bind_return _ _ _ _ _ E).
  - intros o d c cl -> Hd Hc Hcl. eexists. split; [|split; [reflexivity|]].
    + unfold detach.
      rewrite (bind_return _ _ _ _ _ (debug_info_run _ s)). simpl.
      rewrite (bind_return _ _ _ _ _ (attached_object o s)).
      rewrite Hd. simpl.
      unfold get_dispatcher_obj, get_dispatcher, client_request, set_dispatcher,
        bind, gets, modify, ret. simpl.
      rewrite Hd, Hc, Hcl. simpl. rewrite Hd, Hc. reflexivity.
    + repeat split.
      * unfold requests_of. simpl. rewrite lookup_insert_eq, Hcl. done.
      * simpl. destruct (decide (o = c)) as [->|Hne].
        -- by rewrite lookup_insert_eq.
        -- by rewrite lookup_insert_ne, lookup_insert_eq.
      * simpl. by rewrite lookup_insert_eq.
      * rewrite attached_object. simpl. by rewrite lookup_insert_eq.
Qed.

Lemma detach_spec_witness :
  detach exports null attached_state = (Return undefined, attached_state) ∧
  detach exports ctxA started = (Return undefined, started) ∧
  ∃ s', detach exports ctxA attached_state = (Return exports, s') ∧
        requests_of s' ctxA_client = [Quit] ∧
        dispatchers s' !! ctxA_client = Some SNull ∧
        dispatchers s' !! 1 = Some SNull ∧
        attached ctxA s' = (Return false, s').
Proof.
  split; [|split].
  - apply (detach_spec exports null attached_state). reflexivity.
  - apply (detach_spec exports ctxA started). vm_compute. reflexivity.
  - destruct (proj2 (proj2 (detach_spec exports ctxA attached_state))
                1 ctxA_dispatcher ctxA_client
                (Client (VPrim (PStr "6379")) (VPrim (PStr "localhost"))
                   (Options false_ null 5000 true)
                   [("error", LogError); ("message", HandleMessage)] []))
      as (s' & Hrun & _ & Hq & Hc & Ho & Ha);
      [reflexivity | vm_compute; reflexivity | reflexivity | vm_compute; reflexivity |].
    exists s'. split; [exact Hrun|]. split; [|done].
    rewrite Hq. vm_compute. reflexivity.
Defined.

(** ** State bookkeeping *)

Lemma set_arrays_insert_id a l s :
  arrays s !! a = Some l → set_arrays (insert a l) s = s.
Proof.
  intros H. destruct s. unfold set_arrays. simpl in *. f_equal. by apply insert_id.
Qed.

Lemma set_arrays_insert_insert a l1 l2 s :
  set_arrays (insert a l2) (set_arrays (insert a l1) s) = set_arrays (insert a l2) s.
Proof. unfold set_arrays. simpl. f_equal. apply insert_insert_eq. Qed.

Lemma event_list_lookup s m event a l :
  default ∅ (objects s !! m) !! to_string event = Some a →
  arrays s !! a = Some l →
  event_list s m event = Some l.
Proof. intros Hp Ha. unfold event_list. rewrite Hp. simpl. exact Ha. Qed.

Lemma event_list_absent s m event :
  default ∅ (objects s !! m) !! to_string event = None →
  event_list s m event = None.
Proof. intros Hp. unfold event_list. by rewrite Hp. Qed.

(** ** unsubscribe *)

(** The backward loop over the first [n] entries removes, among them, the
    entries equal to the callback and keeps the others in order. *)
Lemma unsubscribe_loop_run (a : loc) (callback : value) (n : nat) : ∀ l s,
  arrays s !! a = Some l → (n ≤ length l)%nat →
  unsubscribe_loop a callback n s
  = (Return tt,
     set_arrays (insert a (filter (λ v, v ≠ callback) (take n l) ++ drop n l)) s).
Proof.
  induction n as [|i IH]; intros l s Ha Hn.
  - simpl. unfold ret. rewrite drop_0. by rewrite set_arrays_insert_id.
  - destruct (lookup_lt_is_Some_2 l i) as [v Hv]; [lia|].
    simpl. unfold bind at 1. unfold array_get at 1, gets. rewrite Ha. simpl.
    rewrite Hv. simpl. unfold strict_eq.
    rewrite (take_S_r _ _ _ Hv), filter_app.
    destruct (decide (v = callback)) as [->|Hne].
    + rewrite bool_decide_eq_true_2 by done.
      unfold bind, array_splice1. rewrite Ha.
      rewrite (IH (delete i l)).
      * rewrite set_arrays_insert_insert. do 3 f_equal.
        rewrite delete_take_drop.
        rewrite take_app_length' by (rewrite length_take; lia).
        rewrite drop_app_length' by (rewrite length_take; lia).
        rewrite filter_cons_False by (intros H; by apply H).
        rewrite filter_nil. by rewrite app_nil_r.
      * simpl. by rewrite lookup_insert_eq.
      * rewrite length_delete by eauto. lia.
    + rewrite bool_decide_eq_false_2 by done.
      unfold bind, ret. rewrite (IH l s Ha) by lia. do 3 f_equal.
      rewrite filter_cons_True by done. rewrite filter_nil.
      rewrite (drop_S _ _ _ Hv). by rewrite <- app_assoc.
Qed.

(** No array for the event: the connection is handed [unsubscribe]. *)
Lemma unsubscribe_absent this event callback s c cl :
  truthy_prim event = true → truthy callback = true →
  _client this = VObj c → clients s !! c = Some cl →
  default ∅ (objects s !! _callbacks this) !! to_string event = None →
  Object_prototype !! to_string event = None →
  unsubscribe this event callback s
  = (Return (Some this), set_clients (insert c (push_request cl (Unsubscribe event))) s).
Proof.
  intros He Hcb Hc Hcl Hp Hproto. unfold unsubscribe.
  rewrite (bind_return _ _ _ _ _ (debug_info_run _ s)).
  rewrite He, Hcb. simpl.
  unfold bind, get_property, gets, ret, client_request.
  rewrite Hp, Hproto. simpl. rewrite Hc, Hcl. done.
Qed.

(** An array for the event: every entry equal to the callback goes, and the
    connection is handed [unsubscribe] when nothing is left. *)
Lemma unsubscribe_present this event callback s c cl a l :
  truthy_prim event = true → truthy callback = true →
  _client this = VObj c → clients s !! c = Some cl →
  default ∅ (objects s !! _callbacks this) !! to_string event = Some a →
  arrays s !! a = Some l →
  unsubscribe this event callback s
  = (Return (Some this),
     let s1 := set_arrays (insert a (filter (λ v, v ≠ callback) l)) s in
     match filter (λ v, v ≠ callback) l with
     | [] => set_clients (insert c (push_request cl (Unsubscribe event))) s1
     | _ :: _ => s1
     end).
Proof.
  intros He Hcb Hc Hcl Hp Ha. unfold unsubscribe.
  rewrite (bind_return _ _ _ _ _ (debug_info_run _ s)).
  rewrite He, Hcb. simpl.
  unfold bind at 1. unfold get_property at 1, gets. rewrite Hp.
  unfold bind at 1. unfold bind at 1. unfold array_length at 1, gets. rewrite Ha. simpl.
  rewrite (unsubscribe_loop_run a callback (length l) l s Ha) by lia.
  rewrite firstn_all, drop_all, app_nil_r.
  unfold bind, array_length, gets, ret. simpl. rewrite lookup_insert_eq. simpl.
  destruct (filter (λ v, v ≠ callback) l) as [|v l'] eqn:E; simpl.
  - unfold client_request. rewrite Hc. simpl. by rewrite Hcl.
  - done.
Qed.

(** C5 (as amended): for a truthy event that names no member of
    [Object.prototype] and a present callback, [unsubscribe] leaves in the
    event's list the entries different from the callback, in their order,
    and hands the connection [unsubscribe] for the event exactly when the
    list it leaves is empty or there is none. *)
Theorem unsubscribe_spec this event callback s c cl :
  truthy_prim event = true → truthy callback = true →
  Object_prototype !! to_string event = None →
  _client this = VObj c → clients s !! c = Some cl →
  registry_ok s (_callbacks this) event →
  ∃ s', unsubscribe this event callback s = (Return (Some this), s') ∧
        event_list s' (_callbacks this) event
        = filter (λ v, v ≠ callback) <$> event_list s (_callbacks this) event ∧
        requests_of s' c
        = requests_of s c ++
          match event_list s' (_callbacks this) event with
          | Some (_ :: _) => []
          | _ => [Unsubscribe event]
          end.
Proof.
  intros He Hcb Hproto Hc Hcl Hok.
  destruct (default ∅ (objects s !! _callbacks this) !! to_string event) as [a|] eqn:Hp.
  - destruct (Hok a Hp) as [l Ha].
    rewrite (unsubscribe_present _ _ _ _ _ _ _ _ He Hcb Hc Hcl Hp Ha).
    eexists. split; [reflexivity|].
    rewrite (event_list_lookup s _ _ _ _ Hp Ha). simpl.
    destruct (filter (λ v, v ≠ callback) l) as [|v l'] eqn:E.
    + assert (event_list
                (set_clients (insert c (push_request cl (Unsubscribe event)))
                   (set_arrays (insert a []) s)) (_callbacks this) event = Some []) as ->.
      { apply (event_list_lookup _ _ _ a); simpl; [done|]. by rewrite lookup_insert_eq. }
      split; [done|]. unfold requests_of. simpl. by rewrite lookup_insert_eq, Hcl.
    + assert (event_list (set_arrays (insert a (v :: l')) s) (_callbacks this) event
              = Some (v :: l')) as ->.
      { apply (event_list_lookup _ _ _ a); simpl; [done|]. by rewrite lookup_insert_eq. }
      split; [done|]. unfold requests_of. simpl. by rewrite app_nil_r.
  - rewrite (unsubscribe_absent _ _ _ _ _ _ He Hcb Hc Hcl Hp Hproto).
    eexists. split; [reflexivity|].
    rewrite (event_list_absent s _ _ Hp).
    assert (event_list (set_clients (insert c (push_request cl (Unsubscribe event))) s)
              (_callbacks this) event = None) as ->.
    { by apply event_list_absent. }
    split; [done|]. unfold requests_of. simpl. by rewrite lookup_insert_eq, Hcl.
Qed.

Lemma unsubscribe_spec_witness :
  ∃ s', unsubscribe ctxA_dispatcher (PStr "x") cb1 subscribed_state
        = (Return (Some ctxA_dispatcher), s') ∧
        event_list s' ctxA_callbacks (PStr "x") = Some [cb2] ∧
        requests_of s' ctxA_client = [Subscribe (PStr "x"); Subscribe (PStr "x")].
Proof.
  destruct (unsubscribe_spec ctxA_dispatcher (PStr "x") cb1 subscribed_state ctxA_client
              (Client (VPrim (PStr "6379")) (VPrim (PStr "localhost"))
                 (Options false_ null 5000 true)
                 [("error", LogError); ("message", HandleMessage)]
                 [Subscribe (PStr "x"); Subscribe (PStr "x")]))
    as (s' & Hrun & Hl & Hr).
  - reflexivity.
  - reflexivity.
  - vm_compute. reflexivity.
  - reflexivity.
  - vm_compute. reflexivity.
  - intros a Ha. vm_compute in Ha. injection Ha as <-. vm_compute. eauto.
  - exists s'. split; [exact Hrun|].
    change (_callbacks ctxA_dispatcher) with ctxA_callbacks in Hl, Hr.
    rewrite Hr, Hl. vm_compute. split; reflexivity.
Defined.

(** C5 (as stated, refuted): the event [""] has no list, and
    [unsubscribe("", cb1)] returns with the state as it was: the connection
    is handed nothing. *)
Lemma unsubscribe_falsy_event_no_request :
  event_list attached_state ctxA_callbacks (PStr "") = None ∧
  unsubscribe ctxA_dispatcher (PStr "") cb1 attached_state = (Return None, attached_state) ∧
  requests_of attached_state ctxA_client = [].
Proof. repeat split; vm_compute; reflexivity. Qed.

(** ** Dispatch *)

Section Dispatch.

Variable code : loc → option (value → list value → M value).

(** The loop over well-behaved callbacks calls them one after the other,
    each with the context of the client's [dispatcher] as receiver and
    the event as only argument, and leaves array and property alone. *)
Lemma dispatch_loop_run (c a : loc) (event : prim) (d : dispatcher) (fs : list loc) :
  Forall (well_behaved code c a) fs →
  ∀ (n i : nat) s,
    dispatchers s !! c = Some (SObj d) →
    arrays s !! a = Some (VObj <$> fs) →
    (i + n ≤ length fs)%nat →
    ∃ s', dispatch_loop code (VObj c) a event i n s = (Return tt, s') ∧
          calls s' = calls s ++
                     ((λ f, Call f (_context d) [VPrim event]) <$> take n (drop i fs)) ∧
          arrays s' !! a = arrays s !! a ∧
          dispatchers s' !! c = dispatchers s !! c.
Proof.
  intros Hwb. induction n as [|n IH]; intros i s Hd Ha Hlen.
  - exists s. simpl. unfold ret. rewrite app_nil_r. done.
  - destruct (lookup_lt_is_Some_2 fs i) as [f Hf]; [lia|].
    pose proof (proj1 (Forall_lookup _ _) Hwb i f Hf) as (body & Hcode & Hbody).
    set (s1 := set_calls (λ cs, cs ++ [Call f (_context d) [VPrim event]]) s).
    destruct (Hbody (_context d) [VPrim event] s1) as (v & s2 & Hrun & Hc & Harr & Hdisp).
    destruct (IH (S i) s2) as (s' & Hloop & Hcalls & Harr' & Hdisp').
    { rewrite Hdisp. exact Hd. }
    { rewrite Harr. exact Ha. }
    { lia. }
    exists s'. split; [|split; [|split]].
    + simpl. unfold bind at 1. unfold array_get at 1, gets. rewrite Ha. simpl.
      rewrite list_lookup_fmap, Hf. simpl.
      unfold bind at 1. unfold get_dispatcher_obj at 1, get_dispatcher, bind, gets.
      rewrite Hd. simpl. rewrite Hcode. unfold modify. fold s1.
      rewrite Hrun. exact Hloop.
    + rewrite Hcalls, Hc. simpl. rewrite (drop_S _ _ _ Hf). simpl.
      by rewrite <- app_assoc.
    + by rewrite Harr', Harr.
    + by rewrite Hdisp', Hdisp.
Qed.

(** With a truthy event and the payload [""], [handleMessage] is its loop
    over the array found under the event name. *)
Lemma handleMessage_enters_loop (c a : loc) (event : prim) (d : dispatcher)
    (l : list value) s :
  truthy_prim event = true →
  dispatchers s !! c = Some (SObj d) →
  default ∅ (objects s !! _callbacks d) !! to_string event = Some a →
  arrays s !! a = Some l →
  handleMessage code (VObj c) event (PStr "") s
  = dispatch_loop code (VObj c) a event 0 (length l) s.
Proof.
  intros He Hd Hp Ha. unfold handleMessage.
  rewrite (bind_return _ _ _ _ _ (debug_info_run _ s)). rewrite He. simpl.
  cbv [bind get_dispatcher_obj get_dispatcher get_property array_length gets ret].
  rewrite Hd. simpl. rewrite Hp, Ha. simpl.
  by rewrite (debug_info_run _ s).
Qed.

(** C4 (as amended): on a delivery with a truthy event name and the
    payload [""], when every entry of the event's list is a function that
    returns, leaves the list and the connection's [dispatcher] alone and
    causes no further invocation, the callbacks invoked are exactly the
    entries of the list, oldest first, one invocation per entry, each with
    the owning context as receiver and the event name as its only
    argument. *)
Theorem handleMessage_dispatches (context c m a : loc) (event : prim) (fs : list loc) s :
  truthy_prim event = true →
  attachment s context c m →
  default ∅ (objects s !! m) !! to_string event = Some a →
  arrays s !! a = Some (VObj <$> fs) →
  Forall (well_behaved code c a) fs →
  ∃ s', handleMessage code (VObj c) event (PStr "") s = (Return tt, s') ∧
        calls s' = calls s ++ ((λ f, Call f (VObj context) [VPrim event]) <$> fs).
Proof.
  intros He [_ Hd] Hp Ha Hwb.
  destruct (dispatch_loop_run c a event _ fs Hwb (length fs) 0 s Hd Ha)
    as (s' & Hloop & Hcalls & _); [lia|].
  exists s'. split.
  - rewrite (handleMessage_enters_loop c a event _ _ s He Hd Hp Ha).
    rewrite length_fmap. exact Hloop.
  - rewrite Hcalls. rewrite drop_0, firstn_all. done.
Qed.

(** No list for the event: the delivery does nothing. *)
Lemma handleMessage_no_list (c : loc) (event : prim) (d : dispatcher) s :
  dispatchers s !! c = Some (SObj d) →
  default ∅ (objects s !! _callbacks d) !! to_string event = None →
  Object_prototype !! to_string event = None →
  handleMessage code (VObj c) event (PStr "") s = (Return tt, s).
Proof.
  intros Hd Hp Hproto. unfold handleMessage.
  rewrite (bind_return _ _ _ _ _ (debug_info_run _ s)).
  destruct (truthy_prim event); [|done]. simpl.
  cbv [bind get_dispatcher_obj get_dispatcher get_property gets ret].
  rewrite Hd. simpl. rewrite Hp, Hproto. simpl.
  by rewrite (debug_info_run _ s).
Qed.

End Dispatch.

Lemma silent_code_well_behaved c a f : well_behaved silent_code c a f.
Proof.
  eexists. split; [reflexivity|]. intros recv args s. by exists undefined, s.
Qed.

Lemma handleMessage_dispatches_witness :
  ∃ s', handleMessage silent_code (VObj ctxA_client) (PStr "x") (PStr "") subscribed_state
        = (Return tt, s') ∧
        calls s' = [Call 2 ctxA [VPrim (PStr "x")]; Call 3 ctxA [VPrim (PStr "x")]].
Proof.
  destruct (handleMessage_dispatches silent_code 1 ctxA_client ctxA_callbacks 7
              (PStr "x") [2; 3] subscribed_state) as (s' & Hrun & Hcalls).
  - reflexivity.
  - split; vm_compute; reflexivity.
  - vm_compute. reflexivity.
  - vm_compute. reflexivity.
  - repeat constructor; apply silent_code_well_behaved.
  - exists s'. split; [exact Hrun|]. rewrite Hcalls. vm_compute. reflexivity.
Defined.

(** C4 (as stated, refuted): the list of ["x"] holds [cb1] and [cb2]; the
    delivery of ["x"] with an empty payload invokes [cb1], which throws,
    and [cb2] is not invoked at all. *)
Lemma handleMessage_thrower_aborts :
  event_list subscribed_state ctxA_callbacks (PStr "x") = Some [cb1; cb2] ∧
  (handleMessage example_code (VObj ctxA_client) (PStr "x") (PStr "") subscribed_state).1
  = Throw (Thrown (VPrim (PStr "boom"))) ∧
  calls (handleMessage example_code (VObj ctxA_client) (PStr "x") (PStr "") subscribed_state).2
  = [Call 2 ctxA [VPrim (PStr "x")]].
Proof. repeat split; vm_compute; reflexivity. Qed.

(** ** subscribe *)

(** An array for the event: the callback is pushed onto it. *)
Lemma subscribe_present this event callback s c cl a l :
  truthy_prim event = true → truthy callback = true →
  _client this = VObj c → clients s !! c = Some cl →
  default ∅ (objects s !! _callbacks this) !! to_string event = Some a →
  arrays s !! a = Some l →
  subscribe this event callback s
  = (Return this,
     set_clients (insert c (push_request cl (Subscribe event)))
       (set_arrays (insert a (l ++ [callback])) s)).
Proof.
  intros He Hcb Hc Hcl Hp Ha. unfold subscribe.
  rewrite (bind_return _ _ _ _ _ (debug_info_run _ s)).
  rewrite He, Hcb. simpl.
  cbv [bind get_property array_push client_request gets ret].
  rewrite Hp, Ha, Hc. simpl. by rewrite Hcl.
Qed.

(** No array for the event: a new one holding the callback is stored. *)
Lemma subscribe_absent this event callback s c cl :
  truthy_prim event = true → truthy callback = true →
  _client this = VObj c → clients s !! c = Some cl →
  default ∅ (objects s !! _callbacks this) !! to_string event = None →
  Object_prototype !! to_string event = None →
  subscribe this event callback s
  = (Return this,
     set_clients (insert c (push_request cl (Subscribe event)))
       (set_objects
          (λ os, <[_callbacks this :=
                     <[to_string event := next_loc s]> (default ∅ (os !! _callbacks this))]> os)
          (set_arrays (insert (next_loc s) [callback])
             (set_next_loc (S (next_loc s)) s)))).
Proof.
  intros He Hcb Hc Hcl Hp Hproto. unfold subscribe.
  rewrite (bind_return _ _ _ _ _ (debug_info_run _ s)).
  rewrite He, Hcb. simpl.
  cbv [bind get_property new_array fresh set_property client_request gets modify ret].
  rewrite Hp, Hproto, Hc. simpl. by rewrite Hcl.
Qed.

(** One [subscribe]: the callback is at the end of the event's list and
    the connection has been handed [subscribe]; the client and the
    [dispatcher] properties are still there for the next call. *)
Lemma subscribe_once this event callback s c cl :
  truthy_prim event = true → truthy callback = true →
  Object_prototype !! to_string event = None →
  _client this = VObj c → clients s !! c = Some cl →
  registry_ok s (_callbacks this) event →
  ∃ s', subscribe this event callback s = (Return this, s') ∧
        event_list s' (_callbacks this) event
        = Some (default [] (event_list s (_callbacks this) event) ++ [callback]) ∧
        clients s' !! c = Some (push_request cl (Subscribe event)) ∧
        dispatchers s' = dispatchers s ∧
        calls s' = calls s.
Proof.
  intros He Hcb Hproto Hc Hcl Hok.
  destruct (default ∅ (objects s !! _callbacks this) !! to_string event) as [a|] eqn:Hp.
  - destruct (Hok a Hp) as [l Ha].
    rewrite (subscribe_present _ _ _ _ _ _ _ _ He Hcb Hc Hcl Hp Ha).
    eexists. split; [reflexivity|].
    rewrite (event_list_lookup s _ _ _ _ Hp Ha). simpl.
    split; [|split; [|done]].
    + apply (event_list_lookup _ _ _ a); simpl; [done|]. by rewrite lookup_insert_eq.
    + by rewrite lookup_insert_eq.
  - rewrite (subscribe_absent _ _ _ _ _ _ He Hcb Hc Hcl Hp Hproto).
    eexists. split; [reflexivity|].
    rewrite (event_list_absent s _ _ Hp). simpl.
    split; [|split; [|done]].
    + apply (event_list_lookup _ _ _ (next_loc s)); simpl.
      * rewrite lookup_insert_eq. simpl. by rewrite lookup_insert_eq.
      * by rewrite lookup_insert_eq.
    + by rewrite lookup_insert_eq.
Qed.

Lemma event_list_registry_ok s m event l :
  event_list s m event = Some l → registry_ok s m event.
Proof.
  unfold event_list, registry_ok. intros H a Ha. rewrite Ha in H. simpl in H. eauto.
Qed.

Lemma requests_of_push s s' c cl r :
  clients s !! c = Some cl → clients s' !! c = Some (push_request cl r) →
  requests_of s' c = requests_of s c ++ [r].
Proof. intros H H'. unfold requests_of. by rewrite H, H'. Qed.

(** An event that names a member of [Object.prototype] and has no list of
    its own: the lookup finds the inherited member, which is truthy and has
    no [push]. *)
Lemma subscribe_inherited this event callback s i :
  truthy_prim event = true → truthy callback = true →
  default ∅ (objects s !! _callbacks this) !! to_string event = None →
  Object_prototype !! to_string event = Some i →
  subscribe this event callback s = (Throw TypeError, s).
Proof.
  intros He Hcb Hp Hproto. unfold subscribe.
  rewrite (bind_return _ _ _ _ _ (debug_info_run _ s)).
  rewrite He, Hcb. simpl.
  cbv [bind get_property gets throw]. by rewrite Hp, Hproto.
Qed.

(** C6 (the code departs from the claim): ["toString"] is a truthy event
    and [cb1] a present callback, yet [subscribe("toString", cb1)] on the
    freshly attached context raises a TypeError; no list is made for the
    event and the connection is handed nothing. *)
Theorem subscribe_toString_raises :
  truthy_prim (PStr "toString") = true ∧ truthy cb1 = true ∧
  subscribe ctxA_dispatcher (PStr "toString") cb1 attached_state
  = (Throw TypeError, attached_state) ∧
  event_list attached_state ctxA_callbacks (PStr "toString") = None ∧
  requests_of attached_state ctxA_client = [].
Proof.
  split; [reflexivity|]. split; [reflexivity|]. split.
  - apply (subscribe_inherited _ _ _ _ (IFunction 0)); vm_compute; reflexivity.
  - split; vm_compute; reflexivity.
Qed.

Lemma event_list_inv s m event l :
  event_list s m event = Some l →
  ∃ a, default ∅ (objects s !! m) !! to_string event = Some a ∧ arrays s !! a = Some l.
Proof.
  unfold event_list. intros H.
  destruct (default ∅ (objects s !! m) !! to_string event) as [a|]; [|done].
  by exists a.
Qed.

(** X19: for a truthy event that names no member of [Object.prototype]
    and a present callback, [subscribe] puts the callback at the end of the
    event's list and hands the connection [subscribe] for the event; a
    second call with the same callback does both again, so the list ends
    with the callback twice and the connection was handed [subscribe]
    twice; a delivery of the event then invokes the callback twice, after
    the callbacks that were there before. *)
Theorem subscribe_spec this event callback s c cl :
  truthy_prim event = true → truthy callback = true →
  Object_prototype !! to_string event = None →
  _client this = VObj c → clients s !! c = Some cl →
  registry_ok s (_callbacks this) event →
  let old := default [] (event_list s (_callbacks this) event) in
  ∃ s1 s2,
    subscribe this event callback s = (Return this, s1) ∧
    event_list s1 (_callbacks this) event = Some (old ++ [callback]) ∧
    requests_of s1 c = requests_of s c ++ [Subscribe event] ∧
    subscribe this event callback s1 = (Return this, s2) ∧
    event_list s2 (_callbacks this) event = Some (old ++ [callback; callback]) ∧
    requests_of s2 c = requests_of s c ++ [Subscribe event; Subscribe event] ∧
    calls s2 = calls s ∧
    ∀ code context fs f,
      attachment s context c (_callbacks this) →
      old = VObj <$> fs → callback = VObj f →
      (∀ a, Forall (well_behaved code c a) (fs ++ [f])) →
      ∃ s3, handleMessage code (VObj c) event (PStr "") s2 = (Return tt, s3) ∧
            calls s3
            = calls s2 ++ ((λ g, Call g (VObj context) [VPrim event]) <$> (fs ++ [f; f])).
Proof.
  intros He Hcb Hproto Hc Hcl Hok old.
  destruct (subscribe_once this event callback s c cl He Hcb Hproto Hc Hcl Hok)
    as (s1 & Hrun1 & Hl1 & Hcl1 & Hd1 & Hcalls1).
  destruct (subscribe_once this event callback s1 c _ He Hcb Hproto Hc Hcl1
              (event_list_registry_ok _ _ _ _ Hl1))
    as (s2 & Hrun2 & Hl2 & Hcl2 & Hd2 & Hcalls2).
  rewrite Hl1 in Hl2. simpl in Hl2. rewrite <- app_assoc in Hl2. simpl in Hl2.
  exists s1, s2. repeat split; try done.
  - by apply (requests_of_push s s1 c cl).
  - rewrite (requests_of_push s1 s2 c _ _ Hcl1 Hcl2).
    rewrite (requests_of_push s s1 c cl _ Hcl Hcl1). by rewrite <- app_assoc.
  - congruence.
  - intros code context fs f [Hctx Hcli] Hold -> Hwb.
    destruct (event_list_inv _ _ _ _ Hl2) as (a & Hp & Ha).
    assert (dispatchers s2 !! c
            = Some (SObj (Dispatcher (_callbacks this) undefined (VObj context)))) as Hcli2.
    { by rewrite Hd2, Hd1. }
    assert (arrays s2 !! a = Some (VObj <$> (fs ++ [f; f]))) as Ha2.
    { rewrite Ha. fold old. rewrite Hold. by rewrite !fmap_app. }
    assert (Forall (well_behaved code c a) (fs ++ [f; f])) as Hwb2.
    { specialize (Hwb a). apply Forall_app in Hwb as [Hfs Hf].
      apply Forall_app. split; [done|].
      apply Forall_cons in Hf as [Hf _]. by repeat constructor. }
    destruct (dispatch_loop_run code c a event _ _ Hwb2 (length (fs ++ [f; f])) 0 s2
                Hcli2 Ha2) as (s3 & Hloop & Hcalls3 & _); [lia|].
    exists s3. split.
    + rewrite (handleMessage_enters_loop code c a event _ _ s2 He Hcli2 Hp Ha2).
      rewrite length_fmap. exact Hloop.
    + rewrite Hcalls3, drop_0, firstn_all. done.
Qed.

Lemma subscribe_spec_witness :
  ∃ s1 s2 s3,
    subscribe ctxA_dispatcher (PStr "x") cb2 attached_state = (Return ctxA_dispatcher, s1) ∧
    event_list s1 ctxA_callbacks (PStr "x") = Some [cb2] ∧
    requests_of s1 ctxA_client = [Subscribe (PStr "x")] ∧
    subscribe ctxA_dispatcher (PStr "x") cb2 s1 = (Return ctxA_dispatcher, s2) ∧
    event_list s2 ctxA_callbacks (PStr "x") = Some [cb2; cb2] ∧
    requests_of s2 ctxA_client = [Subscribe (PStr "x"); Subscribe (PStr "x")] ∧
    handleMessage silent_code (VObj ctxA_client) (PStr "x") (PStr "") s2 = (Return tt, s3) ∧
    calls s3 = [Call 3 ctxA [VPrim (PStr "x")]; Call 3 ctxA [VPrim (PStr "x")]].
Proof.
  destruct (subscribe_spec ctxA_dispatcher (PStr "x") cb2 attached_state ctxA_client
              (Client (VPrim (PStr "6379")) (VPrim (PStr "localhost"))
                 (Options false_ null 5000 true)
                 [("error", LogError); ("message", HandleMessage)] []))
    as (s1 & s2 & Hrun1 & Hl1 & Hr1 & Hrun2 & Hl2 & Hr2 & Hcalls & Hdeliver).
  - reflexivity.
  - reflexivity.
  - vm_compute. reflexivity.
  - reflexivity.
  - vm_compute. reflexivity.
  - intros a Ha. vm_compute in Ha. discriminate.
  - destruct (Hdeliver silent_code 1 [] 3) as (s3 & Hrun3 & Hcalls3).
    + split; vm_compute; reflexivity.
    + vm_compute. reflexivity.
    + reflexivity.
    + intros a. repeat constructor; apply silent_code_well_behaved.
    + exists s1, s2, s3. rewrite Hcalls in Hcalls3.
      repeat split; try done.
Defined.

(** ** attach on a context that is not attached *)

(** [attach] on an object without a truthy [dispatcher] opens one
    connection with the configured endpoint and credentials, makes one empty
    [_callbacks] object, ties both to the context and returns the
    dispatcher. *)
Lemma attach_new (this : value) (o : loc) s :
  truthy_slot (dispatchers s !! o) = false → (o < next_loc s)%nat →
  ∃ s', attach this (VObj o) s = (Return this, s') ∧
        attachment s' o (next_loc s) (S (next_loc s)) ∧
        clients s' !! next_loc s
        = Some (Client (redisPort s) (redisHost s) (Options false_ null 5000 true)
                  [("error", LogError); ("message", HandleMessage)]
                  (if truthy (redisPassword s) then [Auth (redisPassword s)] else [])) ∧
        objects s' !! S (next_loc s) = Some ∅ ∧
        next_loc s' = S (S (next_loc s)).
Proof.
  intros Hd Hlt. unfold attach. simpl.
  rewrite (bind_return _ _ _ _ _ (attached_object o s)). rewrite Hd.
  rewrite (bind_return _ _ _ _ _ (debug_info_run _ s)).
  cbv [bind gets createClient redis_createClient fresh modify ret client_on].
  simpl. rewrite lookup_insert_eq. simpl.
  destruct (truthy (redisPassword s)) eqn:Hpw; simpl;
    repeat first
      [ rewrite lookup_insert_eq
      | progress cbv [new_object bind fresh modify ret get_dispatcher_obj get_dispatcher
                        gets set_dispatcher client_on]
      | progress simpl ];
    (eexists; split; [reflexivity|]; simpl; unfold attachment; simpl;
     rewrite lookup_insert_eq;
     rewrite lookup_insert_ne by lia; rewrite !lookup_insert_eq; done).
Qed.

(** ** The registry stays well formed *)

Lemma wf_registry_ok s m event : wf_registry s → registry_ok s m event.
Proof.
  intros Hwf a Ha. destruct (objects s !! m) as [props|] eqn:Hm; simpl in Ha.
  - by apply (Hwf m props (to_string event) a).
  - by rewrite lookup_empty in Ha.
Qed.

Lemma wf_registry_initial : wf_registry initial_state.
Proof.
  intros m props key a Hm.
  change (objects initial_state) with (∅ : gmap loc (gmap string loc)) in Hm.
  by rewrite lookup_empty in Hm.
Qed.

Lemma subscribe_wf this event callback s :
  wf_registry s → wf_registry (subscribe this event callback s).2.
Proof.
  intros Hwf. unfold subscribe.
  rewrite (bind_return _ _ _ _ _ (debug_info_run _ s)).
  destruct (negb (truthy_prim event) || negb (truthy callback)); [done|].
  cbv [bind get_property gets].
  destruct (default ∅ (objects s !! _callbacks this) !! to_string event) as [a|] eqn:Hp;
    [|destruct (Object_prototype !! to_string event) as [i|]; [done|]; simpl].
  - destruct (wf_registry_ok s _ _ Hwf a Hp) as [l Ha].
    assert (wf_registry (set_arrays (insert a (l ++ [callback])) s)) as Hwf1.
    { intros m props key b Hm Hb. simpl in *.
      destruct (decide (a = b)) as [->|Hne].
      - rewrite lookup_insert_eq. eauto.
      - rewrite lookup_insert_ne by done. eauto. }
    unfold array_push. rewrite Ha.
    unfold client_request. destruct (_client this) as [p|c]; [done|].
    destruct (clients (set_arrays (insert a (l ++ [callback])) s) !! c); done.
  - cbv [new_array fresh bind modify ret set_property].
    set (s1 := set_objects _ _).
    assert (wf_registry s1) as Hwf1.
    { intros m props key b Hm Hb. subst s1. simpl in *.
      destruct (decide (_callbacks this = m)) as [<-|Hne].
      - rewrite lookup_insert_eq in Hm. injection Hm as <-.
        destruct (decide (to_string event = key)) as [<-|Hk].
        + rewrite lookup_insert_eq in Hb. injection Hb as <-.
          rewrite lookup_insert_eq. eauto.
        + rewrite lookup_insert_ne in Hb by done.
          destruct (decide (next_loc s = b)) as [<-|Hb'].
          * rewrite lookup_insert_eq. eauto.
          * rewrite lookup_insert_ne by done.
            destruct (objects s !! _callbacks this) as [props|] eqn:Ho; simpl in Hb.
            -- eauto.
            -- by rewrite lookup_empty in Hb.
      - rewrite lookup_insert_ne in Hm by done.
        destruct (decide (next_loc s = b)) as [<-|Hb'].
        + rewrite lookup_insert_eq. eauto.
        + rewrite lookup_insert_ne by done. eauto. }
    unfold client_request. destruct (_client this) as [p|c]; [done|].
    destruct (clients s1 !! c); done.
Qed.

Section Preservation.

Variable I : state → Prop.

Lemma preserves_ret {A} (a : A) : preserves I (ret a).
Proof. by intros s. Qed.

Lemma preserves_throw {A} e : preserves I (@throw A e).
Proof. by intros s. Qed.

Lemma preserves_gets {A} (f : state → A) : preserves I (gets f).
Proof. by intros s. Qed.

Lemma preserves_bind {A B} (m : M A) (k : A → M B) :
  preserves I m → (∀ a, preserves I (k a)) → preserves I (bind m k).
Proof.
  intros Hm Hk s Hs. unfold bind. specialize (Hm s Hs).
  destruct (m s) as [[a|e] s']; simpl in *; [by apply Hk | done].
Qed.

Lemma preserves_modify f : (∀ s, I s → I (f s)) → preserves I (modify f).
Proof. intros Hf s Hs. by apply Hf. Qed.

Lemma preserves_if {A} (b : bool) (m1 m2 : M A) :
  preserves I m1 → preserves I m2 → preserves I (if b then m1 else m2).
Proof. by destruct b. Qed.

Lemma preserves_debug_info msg : preserves I (debug_info msg).
Proof. intros s Hs. by rewrite debug_info_run. Qed.

Lemma preserves_get_dispatcher v : preserves I (get_dispatcher v).
Proof. intros s Hs. by rewrite get_dispatcher_state. Qed.

Lemma preserves_get_dispatcher_obj v : preserves I (get_dispatcher_obj v).
Proof. intros s Hs. by rewrite get_dispatcher_obj_state. Qed.

Lemma preserves_attached context : preserves I (attached context).
Proof. intros s Hs. by rewrite attached_pure. Qed.

End Preservation.

Create HintDb pres.

#[local] Hint Resolve preserves_ret preserves_throw preserves_gets preserves_debug_info
  preserves_get_dispatcher preserves_get_dispatcher_obj preserves_attached : pres.

(** Steps that touch neither the [_callbacks] objects nor the arrays. *)
Lemma wf_registry_frame s s' :
  objects s' = objects s → arrays s' = arrays s → wf_registry s → wf_registry s'.
Proof. intros Ho Ha Hwf m props key a. rewrite Ho, Ha. apply Hwf. Qed.

Lemma fresh_wf : preserves wf_registry fresh.
Proof. intros s. by apply wf_registry_frame. Qed.

Lemma client_request_wf c r : preserves wf_registry (client_request c r).
Proof.
  intros s Hwf. unfold client_request. destruct c as [p|o]; [done|].
  destruct (clients s !! o); [|done]. revert Hwf. by apply wf_registry_frame.
Qed.

Lemma client_on_wf c name l : preserves wf_registry (client_on c name l).
Proof.
  intros s Hwf. unfold client_on.
  destruct (clients s !! c); [|done]. revert Hwf. by apply wf_registry_frame.
Qed.

Lemma set_dispatcher_wf v x : preserves wf_registry (set_dispatcher v x).
Proof.
  intros s Hwf. unfold set_dispatcher. destruct v as [p|o]; [done|].
  revert Hwf. by apply wf_registry_frame.
Qed.

Lemma new_object_wf : preserves wf_registry new_object.
Proof.
  intros s Hwf m props key a. cbv [new_object bind fresh modify ret]. simpl.
  destruct (decide (next_loc s = m)) as [<-|Hne].
  - rewrite lookup_insert_eq. intros [= <-]. by rewrite lookup_empty.
  - rewrite lookup_insert_ne by done. apply Hwf.
Qed.

Lemma array_splice1_wf a i : preserves wf_registry (array_splice1 a i).
Proof.
  intros s Hwf. unfold array_splice1. destruct (arrays s !! a) as [l|] eqn:Ha; [|done].
  intros m props key b Hm Hb. simpl in *.
  destruct (decide (a = b)) as [->|Hne].
  - rewrite lookup_insert_eq. eauto.
  - rewrite lookup_insert_ne by done. eauto.
Qed.

Lemma createClient_wf port host password :
  preserves wf_registry (createClient port host password).
Proof.
  unfold createClient, redis_createClient.
  repeat first
    [ apply preserves_bind; [|intros ?]
    | apply preserves_if
    | apply preserves_modify; intros s; by apply wf_registry_frame
    | apply fresh_wf | apply client_on_wf | apply client_request_wf
    | solve [auto with pres] ].
Qed.

Lemma unsubscribe_loop_wf a callback n :
  preserves wf_registry (unsubscribe_loop a callback n).
Proof.
  induction n as [|i IH]; simpl; [auto with pres|].
  apply preserves_bind; [auto with pres; unfold array_get; auto with pres|intros v].
  apply preserves_bind; [|by intros _].
  apply preserves_if; [apply array_splice1_wf | auto with pres].
Qed.

#[local] Hint Resolve fresh_wf client_request_wf client_on_wf set_dispatcher_wf
  new_object_wf array_splice1_wf createClient_wf unsubscribe_loop_wf : pres.

Ltac pres_steps :=
  repeat first
    [ solve [auto with pres]
    | apply preserves_bind; [|intros ?]
    | apply preserves_if
    | match goal with |- preserves _ (match ?x with _ => _ end) => destruct x end ].

(** The registry invariant: it holds when the module is loaded and every
    function of the dispatcher keeps it. *)
Theorem api_keeps_registry :
  wf_registry initial_state ∧
  (∀ this port host password debug, preserves wf_registry (start this port host password debug)) ∧
  (∀ this context, preserves wf_registry (attach this context)) ∧
  (∀ this event callback, preserves wf_registry (subscribe this event callback)) ∧
  (∀ this event callback, preserves wf_registry (unsubscribe this event callback)) ∧
  (∀ this event, preserves wf_registry (publish this event)) ∧
  (∀ this context, preserves wf_registry (detach this context)).
Proof.
  split; [apply wf_registry_initial|]. repeat split; intros.
  - unfold start. pres_steps;
      try (apply preserves_modify; intros s; by apply wf_registry_frame).
  - unfold attach. pres_steps.
  - intros s. apply subscribe_wf.
  - unfold unsubscribe, get_property, array_length. pres_steps.
  - unfold publish. pres_steps.
  - unfold detach. pres_steps.
Qed.

(** ** The scenarios of the documentation, run *)

(** After [start], the publisher is the one connection there is. *)
Example started_publisher :
  redisPublisher started = VObj 4 ∧
  clients started !! 4
  = Some (Client (VPrim (PStr "6379")) (VPrim (PStr "localhost"))
            (Options false_ null 5000 true) [("error", LogError)] []).
Proof. split; vm_compute; reflexivity. Qed.

(** [subscribe("change:restaurant", cb2)] on [ctxA], then a delivery of that
    event: [cb2] is invoked once, on [ctxA], with the event name. *)
Example scenario_A :
  calls (deliver silent_code ctxA_client (PStr "change:restaurant") (PStr "")
           (subscribe ctxA_dispatcher (PStr "change:restaurant") cb2 attached_state).2).2
  = [Call 3 ctxA [VPrim (PStr "change:restaurant")]].
Proof. vm_compute. reflexivity. Qed.

(** [subscribe("x", cb1)], [subscribe("x", cb2)], [unsubscribe("x", cb1)],
    then a delivery of ["x"]: only [cb2] is invoked. *)
Example scenario_B :
  calls (deliver example_code ctxA_client (PStr "x") (PStr "") unsubscribed_state).2
  = [Call 3 ctxA [VPrim (PStr "x")]].
Proof. vm_compute. reflexivity. Qed.

(** [attach(ctxA)] twice: the connections are those of the first call, the
    publisher and one subscriber. *)
Example scenario_C :
  clients (attach exports ctxA attached_state).2 = clients attached_state ∧
  dom (clients attached_state) = {[4; 5]}.
Proof. split; vm_compute; reflexivity. Qed.


(** * Further properties of the code *)

(** ** State bookkeeping, continued *)

Lemma set_clients_insert_insert c cl1 cl2 s :
  set_clients (insert c cl2) (set_clients (insert c cl1) s) = set_clients (insert c cl2) s.
Proof. unfold set_clients. simpl. f_equal. apply insert_insert_eq. Qed.

(** ** lib/redis.js: createClient *)

Lemma createClient_run port host password s :
  createClient port host password s
  = (Return (next_loc s),
     set_clients (insert (next_loc s) (new_client port host password))
       (set_next_loc (S (next_loc s)) s)).
Proof.
  cbv [createClient redis_createClient bind fresh modify ret client_on]. simpl.
  rewrite lookup_insert_eq. simpl. unfold new_client.
  destruct (truthy password); simpl.
  - rewrite lookup_insert_eq. by rewrite !set_clients_insert_insert.
  - by rewrite !set_clients_insert_insert.
Qed.



(** ** start *)

Lemma start_run this port host password debug s :
  start this port host password debug s
  = (Return this,
     set_redisPublisher (VObj (next_loc s))
       (set_clients (insert (next_loc s) (new_client port host password))
          (set_next_loc (S (next_loc s)) (set_config debug port host password s)))).
Proof.
  unfold start. unfold bind at 1. unfold modify at 1.
  rewrite (bind_return _ _ _ _ _ (createClient_run _ _ _ _)). reflexivity.
Qed.



(** ** publish *)

(** X3: while no publisher has been set ([start] was not called), [publish]
    with a truthy event raises a TypeError and changes nothing. *)
Theorem publish_without_publisher this event s :
  truthy_prim event = true → redisPublisher s = undefined →
  publish this event s = (Throw TypeError, s).
Proof.
  intros He Hp. unfold publish.
  rewrite (bind_return _ _ _ _ _ (debug_info_run _ s)). rewrite He. simpl.
  cbv [bind gets]. by rewrite Hp.
Qed.

Lemma publish_without_publisher_witness :
  publish exports (PStr "x") loaded = (Throw TypeError, loaded).
Proof. apply publish_without_publisher; reflexivity. Defined.

(** X4: right after [start], whatever the state before, [publish] with a
    truthy event returns the dispatcher, and the commands handed to the new
    publisher are the authentication, if there was a password, followed by
    the publication of the event with the payload [""]; the other
    connections are handed nothing. *)
Theorem start_then_publish this port host password debug event s :
  truthy_prim event = true →
  ∃ s1 s2,
    start this port host password debug s = (Return this, s1) ∧
    publish this event s1 = (Return this, s2) ∧
    requests_of s2 (next_loc s)
    = (if truthy password then [Auth password] else []) ++ [Publish event ""] ∧
    (∀ c, c ≠ next_loc s → clients s2 !! c = clients s !! c).
Proof.
  intros He. rewrite start_run. eexists. eexists. split; [reflexivity|].
  split.
  - unfold publish. rewrite (bind_return _ _ _ _ _ (debug_info_run _ _)).
    rewrite He. simpl. cbv [bind gets client_request ret]. simpl.
    rewrite lookup_insert_eq. reflexivity.
  - split.
    + unfold requests_of. simpl. by rewrite lookup_insert_eq.
    + intros c Hc. simpl. by rewrite !lookup_insert_ne.
Qed.

Lemma start_then_publish_witness :
  ∃ s1 s2,
    start exports (VPrim (PStr "6379")) (VPrim (PStr "localhost")) (VPrim (PStr "secret"))
      false_ loaded = (Return exports, s1) ∧
    publish exports (PStr "x") s1 = (Return exports, s2) ∧
    requests_of s2 4 = [Auth (VPrim (PStr "secret")); Publish (PStr "x") ""].
Proof.
  destruct (start_then_publish exports (VPrim (PStr "6379")) (VPrim (PStr "localhost"))
              (VPrim (PStr "secret")) false_ (PStr "x") loaded eq_refl)
    as (s1 & s2 & H1 & H2 & H3 & _).
  by exists s1, s2.
Defined.

(** ** attach and detach *)

Lemma set_dispatchers_compose f g s :
  set_dispatchers f (set_dispatchers g s) = set_dispatchers (λ ds, f (g ds)) s.
Proof. done. Qed.

(** Two states with the same components are the same. *)
Lemma state_ext s s' :
  DEBUG_DISPATCHER s = DEBUG_DISPATCHER s' → redisPort s = redisPort s' →
  redisHost s = redisHost s' → redisPassword s = redisPassword s' →
  redisPublisher s = redisPublisher s' → dispatchers s = dispatchers s' →
  clients s = clients s' → objects s = objects s' → arrays s = arrays s' →
  next_loc s = next_loc s' → calls s = calls s' → s = s'.
Proof. destruct s, s'. simpl. congruence. Qed.

Lemma gets_run {A} (f : state → A) s : gets f s = (Return (f s), s).
Proof. done. Qed.

Lemma new_object_run s :
  new_object s
  = (Return (next_loc s), set_objects (insert (next_loc s) ∅) (set_next_loc (S (next_loc s)) s)).
Proof. done. Qed.

Lemma client_on_run c name l cl s :
  clients s !! c = Some cl →
  client_on c name l s = (Return tt, set_clients (insert c (add_listener cl name l)) s).
Proof. intros H. unfold client_on. by rewrite H. Qed.

Lemma get_dispatcher_obj_run o d s :
  dispatchers s !! o = Some (SObj d) → get_dispatcher_obj (VObj o) s = (Return d, s).
Proof. intros H. cbv [get_dispatcher_obj get_dispatcher bind gets]. by rewrite H. Qed.

(** [attach] on an object that is not attached, run to its end. *)
Lemma attach_run (this : value) (o : loc) s :
  truthy_slot (dispatchers s !! o) = false →
  attach this (VObj o) s = (Return this, after_attach o s).
Proof.
  intros Hd. unfold attach. cbn [truthy negb].
  rewrite (bind_return _ _ _ _ _ (attached_object o s)). rewrite Hd.
  rewrite (bind_return _ _ _ _ _ (debug_info_run _ s)).
  rewrite (bind_return _ _ _ _ _ (gets_run redisPort s)).
  rewrite (bind_return _ _ _ _ _ (gets_run redisHost s)).
  rewrite (bind_return _ _ _ _ _ (gets_run redisPassword s)).
  rewrite (bind_return _ _ _ _ _ (createClient_run _ _ _ s)).
  set (n := next_loc s).
  set (s1 := set_clients _ _).
  rewrite (bind_return _ _ _ _ _ (new_object_run s1)).
  change (next_loc s1) with (S n).
  set (s2 := set_objects _ _).
  set (d := Dispatcher (S n) (VObj n) (VObj o)).
  assert (set_dispatcher (VObj o) (SObj d) s2
          = (Return tt, set_dispatchers (insert o (SObj d)) s2)) as H3 by done.
  rewrite (bind_return _ _ _ _ _ H3). set (s3 := set_dispatchers _ s2).
  assert (dispatchers s3 !! o = Some (SObj d)) as Hd3.
  { subst s3. cbn [dispatchers set_dispatchers]. apply lookup_insert_eq. }
  rewrite (bind_return _ _ _ _ _ (get_dispatcher_obj_run o d s3 Hd3)).
  rewrite (bind_return _ _ _ _ _ (get_dispatcher_obj_run o d s3 Hd3)).
  cbn [_callbacks _context d].
  set (d' := Dispatcher (S n) undefined (VObj o)).
  assert (set_dispatcher (VObj n) (SObj d') s3
          = (Return tt, set_dispatchers (insert n (SObj d')) s3)) as H4 by done.
  rewrite (bind_return _ _ _ _ _ H4). set (s4 := set_dispatchers _ s3).
  assert (clients s4 !! n = Some (new_client (redisPort s) (redisHost s) (redisPassword s)))
    as Hc4.
  { subst s4 s3 s2 s1. cbn [clients set_dispatchers set_objects set_next_loc set_clients].
    apply lookup_insert_eq. }
  rewrite (bind_return _ _ _ _ _ (client_on_run n _ _ _ s4 Hc4)).
  unfold ret. f_equal.
  apply state_ext; try reflexivity.
  subst s4 s3 s2 s1. unfold after_attach, subscriber_client.
  cbn [clients set_dispatchers set_objects set_next_loc set_clients].
  apply insert_insert_eq.
Qed.

(** X5: [attach] on an object whose [dispatcher] property is not truthy
    returns the dispatcher; afterwards [attached] answers [true], the
    context and one connection that did not exist before refer to each
    other and share a [_callbacks] object without any list, the connection
    has the endpoint and password recorded by [start] and [handleMessage]
    as its message listener, and the other connections and the
    [dispatcher] properties of the other objects are as they were. *)
Theorem attach_fresh_context (this : value) (o : loc) s :
  truthy_slot (dispatchers s !! o) = false → (o < next_loc s)%nat →
  ∃ s', attach this (VObj o) s = (Return this, s') ∧
        attached (VObj o) s' = (Return true, s') ∧
        attachment s' o (next_loc s) (S (next_loc s)) ∧
        (∀ event, event_list s' (S (next_loc s)) event = None) ∧
        clients s' !! next_loc s
        = Some (Client (redisPort s) (redisHost s) (Options false_ null 5000 true)
                  [("error", LogError); ("message", HandleMessage)]
                  (if truthy (redisPassword s) then [Auth (redisPassword s)] else [])) ∧
        (∀ c, c ≠ next_loc s → clients s' !! c = clients s !! c) ∧
        (∀ o', o' ≠ o → o' ≠ next_loc s → dispatchers s' !! o' = dispatchers s !! o').
Proof.
  intros Hd Hlt. rewrite (attach_run this o s Hd).
  eexists. split; [reflexivity|].
  assert (attachment (after_attach o s) o (next_loc s) (S (next_loc s))) as Hatt.
  { split; simpl.
    - rewrite lookup_insert_ne by lia. by rewrite lookup_insert_eq.
    - by rewrite lookup_insert_eq. }
  split; [|split; [done|split; [|split; [|split]]]].
  - rewrite attached_object. by rewrite (proj1 Hatt).
  - intros event. unfold event_list. simpl. rewrite lookup_insert_eq. simpl.
    by rewrite lookup_empty.
  - simpl. by rewrite lookup_insert_eq.
  - intros c Hc. simpl. by rewrite lookup_insert_ne.
  - intros o' Ho Hn. simpl. by rewrite !lookup_insert_ne.
Qed.

Lemma attach_fresh_context_witness :
  ∃ s', attach exports ctxA started = (Return exports, s') ∧
        attached ctxA s' = (Return true, s') ∧
        attachment s' 1 5 6.
Proof.
  destruct (attach_fresh_context exports 1 started) as (s' & H1 & H2 & H3 & _).
  - reflexivity.
  - vm_compute. lia.
  - by exists s'.
Defined.

(** X6: [attach] on a truthy primitive (a non-empty string, [true]) raises
    a TypeError at the assignment of [context.dispatcher], the file being in
    strict mode; by then the connection has been opened, and it stays in
    the state with no [dispatcher] property referring to it. *)
Theorem attach_primitive_raises this p s :
  truthy_prim p = true →
  ∃ s', attach this (VPrim p) s = (Throw TypeError, s') ∧
        clients s' !! next_loc s
        = Some (new_client (redisPort s) (redisHost s) (redisPassword s)) ∧
        dispatchers s' = dispatchers s.
Proof.
  intros Hp. unfold attach. simpl. rewrite Hp. simpl.
  assert (attached (VPrim p) s = (Return false, s)) as Ha.
  { unfold attached, bind, gets.
    destruct (truthy (DEBUG_DISPATCHER s)), p as [| |[]|x]; simpl in *; try done;
      by rewrite Hp. }
  rewrite (bind_return _ _ _ _ _ Ha).
  rewrite (bind_return _ _ _ _ _ (debug_info_run _ s)).
  cbv [bind gets]. rewrite createClient_run.
  cbv [new_object bind fresh modify ret set_dispatcher throw]. simpl.
  eexists. split; [reflexivity|]. simpl. by rewrite lookup_insert_eq.
Qed.

Lemma attach_primitive_raises_witness :
  ∃ s', attach exports (VPrim (PStr "socket")) started = (Throw TypeError, s') ∧
        is_Some (clients s' !! 5) ∧ clients started !! 5 = None.
Proof.
  destruct (attach_primitive_raises exports (PStr "socket") started eq_refl)
    as (s' & H1 & H2 & _).
  exists s'. split; [exact H1|]. split; [by eexists|]. vm_compute. reflexivity.
Defined.

(** [detach] on an attached context, run to its end. *)
Lemma detach_run (this : value) (o c : loc) d cl s :
  dispatchers s !! o = Some (SObj d) → _client d = VObj c → clients s !! c = Some cl →
  detach this (VObj o) s = (Return this, after_detach o c cl s).
Proof.
  intros Hd Hc Hcl. unfold detach.
  rewrite (bind_return _ _ _ _ _ (debug_info_run _ s)). simpl.
  rewrite (bind_return _ _ _ _ _ (attached_object o s)).
  rewrite Hd. simpl.
  unfold get_dispatcher_obj, get_dispatcher, client_request, set_dispatcher,
    bind, gets, modify, ret. simpl.
  rewrite Hd, Hc, Hcl. simpl. rewrite Hd, Hc. reflexivity.
Qed.

(** X7: whenever [detach] returns, a second [detach] of the same context
    returns [undefined] and changes nothing. *)
Theorem detach_twice this context s r s' :
  detach this context s = (Return r, s') →
  detach this context s' = (Return undefined, s').
Proof.
  unfold detach at 1.
  rewrite (bind_return _ _ _ _ _ (debug_info_run _ s)).
  destruct (truthy context) eqn:Ht; simpl.
  2:{ intros [= _ <-]. unfold detach.
      rewrite (bind_return _ _ _ _ _ (debug_info_run _ s)). by rewrite Ht. }
  pose proof (attached_pure context s) as Hpure.
  destruct (attached context s) as [[[]|e] s0] eqn:Ha; simpl in Hpure; subst s0.
  - rewrite (bind_return _ _ _ _ _ Ha). simpl.
    destruct (attached_true_inv context s) as (o & d & -> & Hd); [by rewrite Ha|].
    cbv [get_dispatcher_obj get_dispatcher bind gets]. rewrite Hd. simpl.
    unfold client_request. destruct (_client d) as [p|c] eqn:Hc; [done|].
    destruct (clients s !! c) as [cl|] eqn:Hcl; [|done]. simpl.
    rewrite Hd. simpl. rewrite Hc. cbv [set_dispatcher modify ret]. simpl.
    intros [= _ <-]. unfold detach.
    rewrite (bind_return _ _ _ _ _ (debug_info_run _ _)). simpl.
    rewrite (bind_return _ _ _ _ _ (attached_object o _)). simpl.
    by rewrite lookup_insert_eq.
  - rewrite (bind_return _ _ _ _ _ Ha). simpl. intros [= _ <-]. unfold detach.
    rewrite (bind_return _ _ _ _ _ (debug_info_run _ s)). rewrite Ht. simpl.
    by rewrite (bind_return _ _ _ _ _ Ha).
  - by rewrite (bind_throw _ _ _ _ _ Ha).
Qed.

Lemma detach_twice_witness :
  detach exports ctxA (detach exports ctxA attached_state).2
  = (Return undefined, (detach exports ctxA attached_state).2).
Proof.
  apply (detach_twice exports ctxA attached_state exports). vm_compute. reflexivity.
Defined.

Lemma attachment_distinct s o c m : attachment s o c m → o ≠ c.
Proof. intros [H1 H2] ->. rewrite H1 in H2. discriminate. Qed.

(** X8: [detach] followed by [attach] of the same context gives it a
    connection that did not exist before and a [_callbacks] object without
    any list: no subscription outlives the pair.  The former connection has
    been handed [quit] and its [dispatcher] is [null]. *)
Theorem detach_then_attach this (o c m : loc) cl s :
  attachment s o c m → clients s !! c = Some cl →
  (o < next_loc s)%nat → (c < next_loc s)%nat →
  ∃ s1 s2,
    detach this (VObj o) s = (Return this, s1) ∧
    attach this (VObj o) s1 = (Return this, s2) ∧
    attachment s2 o (next_loc s) (S (next_loc s)) ∧
    (∀ event, event_list s2 (S (next_loc s)) event = None) ∧
    requests_of s2 c = requests_of s c ++ [Quit] ∧
    dispatchers s2 !! c = Some SNull.
Proof.
  intros Hatt Hcl Ho Hc. pose proof (attachment_distinct _ _ _ _ Hatt) as Hne.
  destruct Hatt as [Hctx Hcli].
  exists (after_detach o c cl s), (after_attach o (after_detach o c cl s)).
  split; [by apply (detach_run this o c _ cl s Hctx)|].
  split.
  { apply attach_run. simpl. by rewrite lookup_insert_eq. }
  split; [split|split; [|split]]; simpl.
  - rewrite lookup_insert_ne by lia. by rewrite lookup_insert_eq.
  - by rewrite lookup_insert_eq.
  - intros event. unfold event_list. simpl. rewrite lookup_insert_eq. simpl.
    by rewrite lookup_empty.
  - unfold requests_of. simpl. rewrite lookup_insert_ne by lia.
    by rewrite lookup_insert_eq, Hcl.
  - rewrite lookup_insert_ne by lia. rewrite lookup_insert_ne by done.
    rewrite lookup_insert_ne by done. by rewrite lookup_insert_eq.
Qed.

Lemma detach_then_attach_witness :
  ∃ s1 s2,
    detach exports ctxA subscribed_state = (Return exports, s1) ∧
    attach exports ctxA s1 = (Return exports, s2) ∧
    attachment s2 1 8 9 ∧
    event_list s2 9 (PStr "x") = None ∧
    requests_of s2 ctxA_client = [Subscribe (PStr "x"); Subscribe (PStr "x"); Quit].
Proof.
  destruct (detach_then_attach exports 1 ctxA_client ctxA_callbacks
              (Client (VPrim (PStr "6379")) (VPrim (PStr "localhost"))
                 (Options false_ null 5000 true)
                 [("error", LogError); ("message", HandleMessage)]
                 [Subscribe (PStr "x"); Subscribe (PStr "x")]) subscribed_state)
    as (s1 & s2 & H1 & H2 & H3 & H4 & H5 & _).
  - split; vm_compute; reflexivity.
  - vm_compute. reflexivity.
  - vm_compute. lia.
  - vm_compute. lia.
  - exists s1, s2. split; [exact H1|]. split; [exact H2|].
    split; [exact H3|]. split; [apply H4|]. rewrite H5. vm_compute. reflexivity.
Defined.

(** X9: a message that reaches [handleMessage] on a connection after its
    context was detached, with a truthy event and an empty payload, is not
    ignored: [this.dispatcher] is [null] by then and the delivery raises a
    TypeError. *)
Theorem delivery_after_detach code this (o c m : loc) cl event s :
  truthy_prim event = true → attachment s o c m → clients s !! c = Some cl →
  ∃ s1, detach this (VObj o) s = (Return this, s1) ∧
        handleMessage code (VObj c) event (PStr "") s1 = (Throw TypeError, s1).
Proof.
  intros He Hatt Hcl. pose proof (attachment_distinct _ _ _ _ Hatt) as Hne.
  destruct Hatt as [Hctx Hcli].
  exists (after_detach o c cl s).
  split; [by apply (detach_run this o c _ cl s Hctx)|].
  unfold handleMessage.
  rewrite (bind_return _ _ _ _ _ (debug_info_run _ _)). rewrite He. simpl.
  cbv [bind get_dispatcher_obj get_dispatcher gets]. simpl.
  rewrite lookup_insert_ne by done. by rewrite lookup_insert_eq.
Qed.

Lemma delivery_after_detach_witness :
  ∃ s1, detach exports ctxA subscribed_state = (Return exports, s1) ∧
        handleMessage silent_code (VObj ctxA_client) (PStr "x") (PStr "") s1
        = (Throw TypeError, s1).
Proof.
  apply (delivery_after_detach silent_code exports 1 ctxA_client ctxA_callbacks
           (Client (VPrim (PStr "6379")) (VPrim (PStr "localhost"))
              (Options false_ null 5000 true)
              [("error", LogError); ("message", HandleMessage)]
              [Subscribe (PStr "x"); Subscribe (PStr "x")]) (PStr "x") subscribed_state).
  - reflexivity.
  - split; vm_compute; reflexivity.
  - vm_compute. reflexivity.
Defined.

(** ** subscribe and unsubscribe *)

(** X10: with a falsy event or a missing callback, [subscribe] and
    [unsubscribe] change nothing and hand the connection nothing;
    [subscribe] returns its [this], [unsubscribe] returns [undefined]. *)
Theorem subscription_guards this event callback s :
  truthy_prim event = false ∨ truthy callback = false →
  subscribe this event callback s = (Return this, s) ∧
  unsubscribe this event callback s = (Return None, s).
Proof.
  intros H.
  assert (negb (truthy_prim event) || negb (truthy callback) = true) as Hg.
  { destruct H as [-> | ->]; [done|]. by rewrite orb_true_r. }
  split.
  - unfold subscribe. rewrite (bind_return _ _ _ _ _ (debug_info_run _ s)).
    by rewrite Hg.
  - unfold unsubscribe. rewrite (bind_return _ _ _ _ _ (debug_info_run _ s)).
    by rewrite Hg.
Qed.

Lemma subscription_guards_witness :
  subscribe ctxA_dispatcher (PStr "x") undefined subscribed_state
  = (Return ctxA_dispatcher, subscribed_state) ∧
  unsubscribe ctxA_dispatcher (PStr "x") undefined subscribed_state
  = (Return None, subscribed_state).
Proof. apply subscription_guards. by right. Defined.

Lemma filter_objects (f : loc) (fs : list loc) :
  filter (λ v, v ≠ VObj f) (VObj <$> fs) = VObj <$> filter (λ g, g ≠ f) fs.
Proof.
  induction fs as [|g fs IH]; [done|]. rewrite fmap_cons.
  destruct (decide (g = f)) as [->|Hne].
  - rewrite filter_cons_False by (intros H; by apply H).
    rewrite filter_cons_False by (intros H; by apply H). exact IH.
  - rewrite filter_cons_True by congruence.
    rewrite filter_cons_True by done. rewrite fmap_cons. by rewrite IH.
Qed.

Lemma filter_keeps_all (f : loc) (fs : list loc) :
  f ∉ fs → filter (λ g, g ≠ f) fs = fs.
Proof.
  induction fs as [|g fs IH]; [done|]. intros Hnotin.
  apply not_elem_of_cons in Hnotin as [Hne Hnotin].
  rewrite filter_cons_True by done. by rewrite IH.
Qed.

Lemma well_behaved_filter code c a (P : loc → Prop) `{∀ x, Decision (P x)} fs :
  Forall (well_behaved code c a) fs → Forall (well_behaved code c a) (filter P fs).
Proof.
  intros Hwb. apply Forall_forall. intros g Hg.
  apply list_elem_of_filter in Hg as [_ Hg].
  by apply (proj1 (Forall_forall _ _) Hwb).
Qed.

(** X11: after [unsubscribe(event, f)] on an attached context, a delivery
    of the event invokes the functions that were in the list and are not
    [f], in their order, and never [f], however many times [f] had been
    subscribed (the callbacks being well behaved). *)
Theorem unsubscribed_not_invoked code (context c m a : loc) cl (event : prim)
    (f : loc) (fs : list loc) s :
  truthy_prim event = true →
  attachment s context c m → clients s !! c = Some cl →
  default ∅ (objects s !! m) !! to_string event = Some a →
  arrays s !! a = Some (VObj <$> fs) →
  Forall (well_behaved code c a) fs →
  ∃ s1 s2,
    unsubscribe (Dispatcher m (VObj c) (VObj context)) event (VObj f) s
    = (Return (Some (Dispatcher m (VObj c) (VObj context))), s1) ∧
    handleMessage code (VObj c) event (PStr "") s1 = (Return tt, s2) ∧
    calls s2 = calls s ++
               ((λ g, Call g (VObj context) [VPrim event]) <$> filter (λ g, g ≠ f) fs) ∧
    Call f (VObj context) [VPrim event] ∉ drop (length (calls s)) (calls s2).
Proof.
  intros He [Hctx Hcli] Hcl Hp Ha Hwb.
  set (this := Dispatcher m (VObj c) (VObj context)).
  pose proof (unsubscribe_present this event (VObj f) s c cl a _ He eq_refl eq_refl
                Hcl Hp Ha) as Hrun.
  rewrite filter_objects in Hrun. simpl in Hrun.
  set (fs' := filter (λ g, g ≠ f) fs) in *.
  set (s1 := match VObj <$> fs' with
             | [] => set_clients (insert c (push_request cl (Unsubscribe event)))
                       (set_arrays (insert a (VObj <$> fs')) s)
             | _ :: _ => set_arrays (insert a (VObj <$> fs')) s
             end) in *.
  assert (dispatchers s1 = dispatchers s ∧ objects s1 = objects s ∧
          arrays s1 !! a = Some (VObj <$> fs') ∧ calls s1 = calls s)
    as (Hd1 & Ho1 & Ha1 & Hc1).
  { subst s1. destruct (VObj <$> fs'); simpl; by rewrite lookup_insert_eq. }
  assert (dispatchers s1 !! c = Some (SObj (Dispatcher m undefined (VObj context))))
    as Hcli1 by (by rewrite Hd1).
  assert (default ∅ (objects s1 !! m) !! to_string event = Some a) as Hp1
    by (by rewrite Ho1).
  destruct (dispatch_loop_run code c a event _ fs' (well_behaved_filter _ _ _ _ _ Hwb)
              (length fs') 0 s1 Hcli1 Ha1) as (s2 & Hloop & Hcalls & _); [lia|].
  exists s1, s2. split; [exact Hrun|]. split; [|split].
  - rewrite (handleMessage_enters_loop code c a event _ _ s1 He Hcli1 Hp1 Ha1).
    rewrite length_fmap. exact Hloop.
  - rewrite Hcalls, Hc1, drop_0, firstn_all. done.
  - rewrite Hcalls, Hc1, drop_0, firstn_all.
    rewrite drop_app_length. intros Hin.
    apply list_elem_of_fmap in Hin as (g & [= ->] & Hg).
    apply list_elem_of_filter in Hg as [Hg _]. by apply Hg.
Qed.

Lemma unsubscribed_not_invoked_witness :
  ∃ s1 s2,
    unsubscribe ctxA_dispatcher (PStr "x") cb1 subscribed_state
    = (Return (Some ctxA_dispatcher), s1) ∧
    handleMessage silent_code (VObj ctxA_client) (PStr "x") (PStr "") s1 = (Return tt, s2) ∧
    calls s2 = [Call 3 ctxA [VPrim (PStr "x")]].
Proof.
  destruct (unsubscribed_not_invoked silent_code 1 ctxA_client ctxA_callbacks 7
              (Client (VPrim (PStr "6379")) (VPrim (PStr "localhost"))
                 (Options false_ null 5000 true)
                 [("error", LogError); ("message", HandleMessage)]
                 [Subscribe (PStr "x"); Subscribe (PStr "x")])
              (PStr "x") 2 [2; 3] subscribed_state)
    as (s1 & s2 & H1 & H2 & H3 & _).
  - reflexivity.
  - split; vm_compute; reflexivity.
  - vm_compute. reflexivity.
  - vm_compute. reflexivity.
  - vm_compute. reflexivity.
  - repeat constructor; apply silent_code_well_behaved.
  - exists s1, s2. split; [exact H1|]. split; [exact H2|].
    rewrite H3. vm_compute. reflexivity.
Defined.



(** ** The heap of the registry *)

Lemma heap_ok_frame s s' :
  objects s' = objects s → arrays s' = arrays s → (next_loc s ≤ next_loc s')%nat →
  heap_ok s → heap_ok s'.
Proof.
  intros Ho Ha Hn (Hwf & Hb & Hsep). split; [|split].
  - by apply (wf_registry_frame s s').
  - intros a. rewrite Ha. intros H. specialize (Hb a H). lia.
  - intros m m' props props' key key' a. rewrite Ho. apply Hsep.
Qed.

Lemma heap_ok_initial : heap_ok initial_state.
Proof.
  split; [apply wf_registry_initial|]. split.
  - intros a [l Hl]. change (arrays initial_state) with (∅ : gmap loc (list value)) in Hl.
    by rewrite lookup_empty in Hl.
  - intros m m' props props' key key' a Hm.
    change (objects initial_state) with (∅ : gmap loc (gmap string loc)) in Hm.
    by rewrite lookup_empty in Hm.
Qed.

Lemma fresh_heap : preserves heap_ok fresh.
Proof. intros s. apply heap_ok_frame; simpl; [done|done|lia]. Qed.

Lemma client_request_heap c r : preserves heap_ok (client_request c r).
Proof.
  intros s H. unfold client_request. destruct c as [p|o]; [done|].
  destruct (clients s !! o); [|done]. revert H. by apply heap_ok_frame.
Qed.

Lemma client_on_heap c name l : preserves heap_ok (client_on c name l).
Proof.
  intros s H. unfold client_on.
  destruct (clients s !! c); [|done]. revert H. by apply heap_ok_frame.
Qed.

Lemma set_dispatcher_heap v x : preserves heap_ok (set_dispatcher v x).
Proof.
  intros s H. unfold set_dispatcher. destruct v as [p|o]; [done|].
  revert H. by apply heap_ok_frame.
Qed.

Lemma createClient_heap port host password :
  preserves heap_ok (createClient port host password).
Proof.
  intros s. rewrite createClient_run. apply heap_ok_frame; simpl; [done|done|lia].
Qed.

Lemma new_object_heap : preserves heap_ok new_object.
Proof.
  intros s (Hwf & Hb & Hsep). split; [by apply new_object_wf|]. split.
  - intros a Ha. specialize (Hb a Ha). simpl. lia.
  - intros m m' props props' key key' a. simpl.
    destruct (decide (next_loc s = m)) as [<-|Hm].
    { rewrite lookup_insert_eq. intros [= <-]. by rewrite lookup_empty. }
    rewrite lookup_insert_ne by done. intros H1 H2.
    destruct (decide (next_loc s = m')) as [<-|Hm'].
    { rewrite lookup_insert_eq. intros [= <-]. by rewrite lookup_empty. }
    rewrite lookup_insert_ne by done. intros H3 H4.
    by apply (Hsep _ _ _ _ _ _ _ H1 H2 H3 H4).
Qed.

(** Replacing the contents of an array that is there. *)
Lemma set_array_heap a l s :
  is_Some (arrays s !! a) → heap_ok s → heap_ok (set_arrays (insert a l) s).
Proof.
  intros Ha (Hwf & Hb & Hsep). split; [|split].
  - intros m props key b Hm Hk. simpl in *.
    destruct (decide (a = b)) as [->|Hne].
    + rewrite lookup_insert_eq. eauto.
    + rewrite lookup_insert_ne by done. eauto.
  - intros b. simpl. destruct (decide (a = b)) as [->|Hne].
    + intros _. by apply Hb.
    + rewrite lookup_insert_ne by done. apply Hb.
  - exact Hsep.
Qed.

Lemma array_splice1_heap a i : preserves heap_ok (array_splice1 a i).
Proof.
  intros s H. unfold array_splice1. destruct (arrays s !! a) as [l|] eqn:Ha; [|done].
  apply set_array_heap; eauto.
Qed.

Lemma unsubscribe_loop_heap a callback n :
  preserves heap_ok (unsubscribe_loop a callback n).
Proof.
  induction n as [|i IH]; simpl; [apply preserves_ret|].
  apply preserves_bind; [unfold array_get; apply preserves_gets|intros v].
  apply preserves_bind; [|by intros _].
  apply preserves_if; [apply array_splice1_heap | apply preserves_ret].
Qed.

(** Storing a new array under a property that was not there. *)
Lemma new_list_heap (m : loc) (key : string) (l : list value) s :
  default ∅ (objects s !! m) !! key = None →
  heap_ok s →
  heap_ok (set_objects (λ os, <[m := <[key := next_loc s]> (default ∅ (os !! m))]> os)
             (set_arrays (insert (next_loc s) l) (set_next_loc (S (next_loc s)) s))).
Proof.
  intros Hp (Hwf & Hb & Hsep).
  set (s1 := set_objects _ _).
  assert (∀ m1 props1 k1 b,
            objects s1 !! m1 = Some props1 → props1 !! k1 = Some b →
            (m1 = m ∧ k1 = key ∧ b = next_loc s) ∨
            (∃ props, objects s !! m1 = Some props ∧ props !! k1 = Some b)) as Hcases.
  { intros m1 props1 k1 b. subst s1. simpl.
    destruct (decide (m = m1)) as [<-|Hm].
    - rewrite lookup_insert_eq. intros [= <-].
      destruct (decide (key = k1)) as [<-|Hk].
      + rewrite lookup_insert_eq. intros [= <-]. by left.
      + rewrite lookup_insert_ne by done. intros Hb1. right.
        destruct (objects s !! m) as [props|]; simpl in Hb1; [eauto|].
        by rewrite lookup_empty in Hb1.
    - rewrite lookup_insert_ne by done. intros H1 H2. right. eauto. }
  assert (∀ m1 props k1 b, objects s !! m1 = Some props → props !! k1 = Some b →
                           b ≠ next_loc s) as Hold.
  { intros m1 props k1 b H1 H2 ->. specialize (Hb _ (Hwf _ _ _ _ H1 H2)). lia. }
  split; [|split].
  - intros m1 props1 k1 b H1 H2. simpl.
    destruct (Hcases _ _ _ _ H1 H2) as [(_ & _ & ->)|(props & H3 & H4)].
    + rewrite lookup_insert_eq. eauto.
    + rewrite lookup_insert_ne by (intros E; by apply (Hold _ _ _ _ H3 H4)). eauto.
  - intros b. simpl. destruct (decide (next_loc s = b)) as [<-|Hne]; [lia|].
    rewrite lookup_insert_ne by done. intros H. specialize (Hb _ H). lia.
  - intros m1 m2 props1 props2 k1 k2 b H1 H2 H3 H4.
    destruct (Hcases _ _ _ _ H1 H2) as [(-> & -> & ->)|(p1 & H5 & H6)],
             (Hcases _ _ _ _ H3 H4) as [(-> & -> & E)|(p2 & H7 & H8)].
    + done.
    + by destruct (Hold _ _ _ _ H7 H8).
    + subst b. by destruct (Hold _ _ _ _ H5 H6).
    + by apply (Hsep _ _ _ _ _ _ _ H5 H6 H7 H8).
Qed.

Lemma subscribe_heap this event callback : preserves heap_ok (subscribe this event callback).
Proof.
  intros s Hok. unfold subscribe.
  rewrite (bind_return _ _ _ _ _ (debug_info_run _ s)).
  destruct (negb (truthy_prim event) || negb (truthy callback)); [done|].
  cbv [bind get_property gets].
  destruct (default ∅ (objects s !! _callbacks this) !! to_string event) as [a|] eqn:Hp;
    [|destruct (Object_prototype !! to_string event) as [i|]; [done|]; simpl].
  - destruct (wf_registry_ok s _ _ (proj1 Hok) a Hp) as [l Ha].
    unfold array_push. rewrite Ha.
    pose proof (set_array_heap a (l ++ [callback]) s (mk_is_Some _ _ Ha) Hok) as H1.
    pose proof (client_request_heap (_client this) (Subscribe event) _ H1) as H2.
    destruct (client_request (_client this) (Subscribe event) _) as [[[]|e] s2]; done.
  - cbv [new_array fresh bind modify ret set_property].
    pose proof (new_list_heap _ _ [callback] s Hp Hok) as H1.
    pose proof (client_request_heap (_client this) (Subscribe event) _ H1) as H2.
    destruct (client_request (_client this) (Subscribe event) _) as [[[]|e] s2]; done.
Qed.

Create HintDb heap.

#[local] Hint Resolve preserves_ret preserves_throw preserves_gets preserves_debug_info
  preserves_get_dispatcher preserves_get_dispatcher_obj preserves_attached
  fresh_heap client_request_heap client_on_heap set_dispatcher_heap createClient_heap
  new_object_heap array_splice1_heap unsubscribe_loop_heap : heap.

Ltac heap_steps :=
  repeat first
    [ solve [auto with heap]
    | apply preserves_bind; [|intros ?]
    | apply preserves_if
    | match goal with |- preserves _ (match ?x with _ => _ end) => destruct x end ].

Lemma start_heap this port host password debug :
  preserves heap_ok (start this port host password debug).
Proof. intros s. rewrite start_run. apply heap_ok_frame; simpl; [done|done|lia]. Qed.

Lemma attach_heap this context : preserves heap_ok (attach this context).
Proof. unfold attach. heap_steps. Qed.

Lemma unsubscribe_heap this event callback :
  preserves heap_ok (unsubscribe this event callback).
Proof. unfold unsubscribe, get_property, array_length. heap_steps. Qed.

Lemma publish_heap this event : preserves heap_ok (publish this event).
Proof. unfold publish. heap_steps. Qed.

Lemma detach_heap this context : preserves heap_ok (detach this context).
Proof. unfold detach. heap_steps. Qed.

Lemma loaded_heap_ok : heap_ok loaded.
Proof. apply (heap_ok_frame initial_state); simpl; [done|done|lia|apply heap_ok_initial]. Qed.

Lemma subscribed_state_heap_ok : heap_ok subscribed_state.
Proof.
  unfold subscribed_state. do 2 apply subscribe_heap.
  unfold attached_state. apply attach_heap.
  unfold started. apply start_heap. apply loaded_heap_ok.
Qed.

(** X13: the registry's heap is sound in the state the module is loaded in
    and every function of the dispatcher keeps it so, whether it returns or
    raises: each property of a [_callbacks] object holds an allocated
    array, arrays lie below the next identity, and no array is held by two
    properties. *)
Theorem api_keeps_heap :
  heap_ok initial_state ∧
  (∀ this port host password debug, preserves heap_ok (start this port host password debug)) ∧
  (∀ this context, preserves heap_ok (attach this context)) ∧
  (∀ this event callback, preserves heap_ok (subscribe this event callback)) ∧
  (∀ this event callback, preserves heap_ok (unsubscribe this event callback)) ∧
  (∀ this event, preserves heap_ok (publish this event)) ∧
  (∀ this context, preserves heap_ok (detach this context)).
Proof.
  split; [apply heap_ok_initial|]. repeat apply conj; intros.
  - apply start_heap.
  - apply attach_heap.
  - apply subscribe_heap.
  - apply unsubscribe_heap.
  - apply publish_heap.
  - apply detach_heap.
Qed.

Lemma api_keeps_heap_witness :
  heap_ok (unsubscribe ctxA_dispatcher (PStr "x") cb1 subscribed_state).2.
Proof.
  destruct api_keeps_heap as (_ & _ & _ & _ & Hunsub & _).
  apply Hunsub. apply subscribed_state_heap_ok.
Defined.

(** ** Lists do not interfere *)

Lemma property_inv s m key a :
  default ∅ (objects s !! m) !! key = Some a →
  ∃ props, objects s !! m = Some props ∧ props !! key = Some a.
Proof.
  destruct (objects s !! m) as [props|]; simpl; [eauto|]. by rewrite lookup_empty.
Qed.

Lemma separate_lists s m key m' key' a :
  heap_ok s → (m', key') ≠ (m, key) →
  default ∅ (objects s !! m) !! key = Some a →
  default ∅ (objects s !! m') !! key' ≠ Some a.
Proof.
  intros (_ & _ & Hsep) Hne H H'.
  destruct (property_inv _ _ _ _ H) as (p & H1 & H2).
  destruct (property_inv _ _ _ _ H') as (p' & H3 & H4).
  destruct (Hsep _ _ _ _ _ _ _ H1 H2 H3 H4) as [-> ->]. by apply Hne.
Qed.

Lemma touches_only_refl s a : touches_only s a s.
Proof. by split. Qed.

Lemma event_list_untouched s st a m' (event' : prim) :
  touches_only s a st →
  default ∅ (objects s !! m') !! to_string event' ≠ Some a →
  event_list st m' event' = event_list s m' event'.
Proof.
  intros [Ho Ha] Hne. unfold event_list. rewrite Ho.
  destruct (default ∅ (objects s !! m') !! to_string event') as [a'|]; simpl; [|done].
  apply Ha. congruence.
Qed.

Lemma client_request_touches s a c r : preserves (touches_only s a) (client_request c r).
Proof.
  intros st H. unfold client_request. destruct c as [p|o]; [done|].
  by destruct (clients st !! o).
Qed.

Lemma array_splice1_touches s a i : preserves (touches_only s a) (array_splice1 a i).
Proof.
  intros st [Ho Ha]. unfold array_splice1. destruct (arrays st !! a); [|done].
  split; [done|]. intros a' Hne. simpl. rewrite lookup_insert_ne by done. by apply Ha.
Qed.

Lemma array_push_touches s a v : preserves (touches_only s a) (array_push a v).
Proof.
  intros st [Ho Ha]. unfold array_push. destruct (arrays st !! a); [|done].
  split; [done|]. intros a' Hne. simpl. rewrite lookup_insert_ne by done. by apply Ha.
Qed.

Lemma unsubscribe_loop_touches s a callback n :
  preserves (touches_only s a) (unsubscribe_loop a callback n).
Proof.
  induction n as [|i IH]; simpl; [apply preserves_ret|].
  apply preserves_bind; [unfold array_get; apply preserves_gets|intros v].
  apply preserves_bind; [|by intros _].
  apply preserves_if; [apply array_splice1_touches | apply preserves_ret].
Qed.

Lemma client_request_event_list s c r m' (event' : prim) :
  event_list (client_request c r s).2 m' event' = event_list s m' event'.
Proof.
  unfold client_request. destruct c as [p|o]; [done|]. by destruct (clients s !! o).
Qed.

(** X14: [subscribe] and [unsubscribe] for one event of one context leave
    the list of every other event, and every list of every other context,
    as it was; this also holds when the call raises. *)
Theorem subscription_isolated this event callback s (m' : loc) (event' : prim) :
  heap_ok s →
  (m', to_string event') ≠ (_callbacks this, to_string event) →
  event_list (subscribe this event callback s).2 m' event' = event_list s m' event' ∧
  event_list (unsubscribe this event callback s).2 m' event' = event_list s m' event'.
Proof.
  intros Hok Hne. split.
  - unfold subscribe. rewrite (bind_return _ _ _ _ _ (debug_info_run _ s)).
    destruct (negb (truthy_prim event) || negb (truthy callback)); [done|].
    cbv [bind get_property gets].
    destruct (default ∅ (objects s !! _callbacks this) !! to_string event) as [a|] eqn:Hp;
      [|destruct (Object_prototype !! to_string event) as [i|]; [done|]; simpl].
    + apply (event_list_untouched s _ a); [|by apply (separate_lists s _ _ _ _ a Hok Hne)].
      pose proof (array_push_touches s a callback s (touches_only_refl s a)) as H1.
      destruct (array_push a callback s) as [[[]|e] s1]; simpl in *; [|done].
      pose proof (client_request_touches s a (_client this) (Subscribe event) s1 H1) as H2.
      by destruct (client_request (_client this) (Subscribe event) s1) as [[[]|e] s2].
    + cbv [new_array fresh bind modify ret set_property].
      set (s1 := set_objects _ _).
      assert (event_list s1 m' event' = event_list s m' event') as H1.
      { unfold event_list. subst s1. simpl.
        assert (default ∅ (<[_callbacks this :=
                               <[to_string event := next_loc s]>
                                 (default ∅ (objects s !! _callbacks this))]> (objects s)
                           !! m') !! to_string event'
                = default ∅ (objects s !! m') !! to_string event') as ->.
        { destruct (decide (_callbacks this = m')) as [<-|Hm].
          - rewrite lookup_insert_eq. simpl.
            rewrite lookup_insert_ne; [done|]. intros E. apply Hne. by rewrite E.
          - by rewrite lookup_insert_ne. }
        destruct (default ∅ (objects s !! m') !! to_string event') as [a'|] eqn:Hp';
          simpl; [|done].
        destruct (property_inv _ _ _ _ Hp') as (p & H1 & H2).
        destruct Hok as (Hwf & Hb & _). specialize (Hb _ (Hwf _ _ _ _ H1 H2)).
        rewrite lookup_insert_ne by lia. done. }
      rewrite <- H1.
      apply (event_list_untouched s1 _ (next_loc s1)).
      * pose proof (client_request_touches s1 (next_loc s1) (_client this) (Subscribe event)
                      s1 (touches_only_refl _ _)) as H2.
        by destruct (client_request (_client this) (Subscribe event) s1) as [[[]|e] s2].
      * intros E. destruct (property_inv _ _ _ _ E) as (p & H3 & H4).
        pose proof (new_list_heap (_callbacks this) (to_string event) [callback] s Hp Hok) as (Hwf1 & Hb1 & _).
        fold s1 in Hwf1, Hb1. specialize (Hb1 _ (Hwf1 _ _ _ _ H3 H4)). lia.
  - unfold unsubscribe. rewrite (bind_return _ _ _ _ _ (debug_info_run _ s)).
    destruct (negb (truthy_prim event) || negb (truthy callback)); [done|].
    cbv [bind get_property gets].
    destruct (default ∅ (objects s !! _callbacks this) !! to_string event) as [a|] eqn:Hp.
    + apply (event_list_untouched s _ a); [|by apply (separate_lists s _ _ _ _ a Hok Hne)].
      unfold array_length at 1, gets.
      pose proof (unsubscribe_loop_touches s a callback
                    (default 0 (length <$> arrays s !! a)) s (touches_only_refl s a)) as H1.
      destruct (unsubscribe_loop a callback _ s) as [[[]|e] s1]; simpl in *; [|done].
      unfold array_length, gets.
      destruct (bool_decide (length <$> arrays s1 !! a = Some 0)); simpl; [|done].
      pose proof (client_request_touches s a (_client this) (Unsubscribe event) s1 H1) as H2.
      by destruct (client_request (_client this) (Unsubscribe event) s1) as [[[]|e] s2].
    + pose proof (client_request_event_list s (_client this) (Unsubscribe event) m' event')
        as Hreq.
      destruct (Object_prototype !! to_string event) as [[n|]|]; simpl; unfold ret;
        try destruct (bool_decide (n = 0)); simpl; try done;
        by destruct (client_request (_client this) (Unsubscribe event) s) as [[[]|e] s2].
Qed.

Lemma subscription_isolated_witness :
  event_list (subscribe ctxA_dispatcher (PStr "y") cb1 subscribed_state).2
    ctxA_callbacks (PStr "x") = Some [cb1; cb2] ∧
  event_list (unsubscribe ctxA_dispatcher (PStr "y") cb1 subscribed_state).2
    ctxA_callbacks (PStr "x") = Some [cb1; cb2].
Proof.
  destruct (subscription_isolated ctxA_dispatcher (PStr "y") cb1 subscribed_state
              ctxA_callbacks (PStr "x") subscribed_state_heap_ok) as [H1 H2].
  - discriminate.
  - rewrite H1, H2. split; vm_compute; reflexivity.
Defined.

(** ** What the router does on its own *)

Section RouterKeeps.

Variable code : loc → option (value → list value → M value).
Variable I : state → Prop.

Hypothesis callbacks_keep :
  ∀ f body recv args, code f = Some body → preserves I (body recv args).
Hypothesis recording_keeps :
  ∀ c s, I s → I (set_calls (λ cs, cs ++ [c]) s).

Lemma invoke_keeps f recv args : preserves I (invoke code f recv args).
Proof.
  unfold invoke. destruct f as [p|o]; [apply preserves_throw|].
  destruct (code o) as [body|] eqn:Hc; [|apply preserves_throw].
  apply preserves_bind; [|intros _; by apply (callbacks_keep o)].
  apply preserves_modify. intros s. apply recording_keeps.
Qed.

Lemma dispatch_loop_keeps this callbacks event n :
  ∀ i, preserves I (dispatch_loop code this callbacks event i n).
Proof.
  induction n as [|n IH]; intros i; simpl; [apply preserves_ret|].
  apply preserves_bind; [unfold array_get; apply preserves_gets|intros f].
  apply preserves_if; [apply preserves_throw|].
  apply preserves_bind; [apply preserves_get_dispatcher_obj|intros d].
  apply preserves_bind; [apply invoke_keeps|intros _]. apply IH.
Qed.

(** X15: [handleMessage] changes the state only by recording each
    invocation and by what the invoked callbacks do: a property of the
    state that the callbacks keep, and that recording an invocation keeps,
    holds after a delivery whenever it held before, whether the delivery
    returns or raises. *)
Theorem handleMessage_keeps this event message :
  preserves I (handleMessage code this event message).
Proof.
  unfold handleMessage.
  apply preserves_bind; [apply preserves_debug_info|intros _].
  apply preserves_if; [apply preserves_ret|].
  apply preserves_if; [apply preserves_throw|].
  apply preserves_bind; [apply preserves_get_dispatcher_obj|intros d].
  apply preserves_bind; [unfold get_property; apply preserves_gets|intros callbacks].
  apply preserves_bind.
  { destruct callbacks as [[a|[n|]]|];
      [unfold array_length; apply preserves_gets|apply preserves_ret..]. }
  intros len.
  apply preserves_bind; [apply preserves_debug_info|intros _].
  destruct callbacks as [[a|i]|]; [apply dispatch_loop_keeps| |apply preserves_ret].
  destruct len as [[|n]|]; [apply preserves_ret|apply preserves_throw|apply preserves_ret].
Qed.

End RouterKeeps.

(** With callbacks that only return, a delivery of ["x"] to the two
    subscribers leaves every connection with the commands it had. *)
Lemma handleMessage_keeps_witness :
  clients (handleMessage silent_code (VObj ctxA_client) (PStr "x") (PStr "")
             subscribed_state).2
  = clients subscribed_state.
Proof.
  apply (handleMessage_keeps silent_code (λ s, clients s = clients subscribed_state)).
  - intros f body recv args [= <-] s Hs. exact Hs.
  - intros c s Hs. exact Hs.
  - reflexivity.
Defined.

(** ** Callbacks that change the list during a delivery *)

Section Reentrancy.

Variable code : loc → option (value → list value → M value).

(** One turn of the loop on an entry that is a function. *)
Lemma dispatch_loop_step (c a : loc) (event : prim) d (l : list value) (f : loc) body
    (i n : nat) s :
  dispatchers s !! c = Some (SObj d) → arrays s !! a = Some l →
  l !! i = Some (VObj f) → code f = Some body →
  dispatch_loop code (VObj c) a event i (S n) s
  = bind (body (_context d) [VPrim event])
         (λ _, dispatch_loop code (VObj c) a event (S i) n)
         (set_calls (λ cs, cs ++ [Call f (_context d) [VPrim event]]) s).
Proof.
  intros Hd Ha Hi Hcode. simpl.
  cbv [bind array_get gets get_dispatcher_obj get_dispatcher invoke modify ret].
  rewrite Ha. simpl. rewrite Hi. simpl. rewrite Hd. simpl. by rewrite Hcode.
Qed.

(** The loop over a stretch of the array that holds well-behaved
    functions, whatever the array holds elsewhere. *)
Lemma dispatch_loop_range (c a : loc) (event : prim) (d : dispatcher) (l : list value) :
  ∀ (fs : list loc) (i : nat) s,
    Forall (well_behaved code c a) fs →
    dispatchers s !! c = Some (SObj d) →
    arrays s !! a = Some l →
    take (length fs) (drop i l) = VObj <$> fs →
    ∃ s', dispatch_loop code (VObj c) a event i (length fs) s = (Return tt, s') ∧
          calls s' = calls s ++ ((λ f, Call f (_context d) [VPrim event]) <$> fs) ∧
          arrays s' !! a = Some l ∧
          dispatchers s' !! c = Some (SObj d).
Proof.
  induction fs as [|f fs IH]; intros i s Hwb Hd Ha Htake.
  - exists s. simpl. unfold ret. by rewrite app_nil_r.
  - apply Forall_cons in Hwb as [(body & Hcode & Hbody) Hwb].
    destruct (drop i l) as [|x rest] eqn:Hdrop; [done|].
    simpl in Htake. injection Htake as -> Htake.
    assert (l !! i = Some (VObj f)) as Hi.
    { rewrite <- (Nat.add_0_r i), <- lookup_drop, Hdrop. done. }
    assert (drop (S i) l = rest) as Hrest.
    { pose proof (drop_S _ _ _ Hi) as E. rewrite Hdrop in E. by injection E. }
    set (s1 := set_calls (λ cs, cs ++ [Call f (_context d) [VPrim event]]) s).
    destruct (Hbody (_context d) [VPrim event] s1) as (v & s2 & Hrun & Hc & Harr & Hdisp).
    destruct (IH (S i) s2) as (s' & Hloop & Hcalls & Harr' & Hdisp'); [done| | | |].
    { rewrite Hdisp. exact Hd. }
    { rewrite Harr. exact Ha. }
    { by rewrite Hrest. }
    exists s'. split; [|split; [|done]].
    + change (length (f :: fs)) with (S (length fs)).
      rewrite (dispatch_loop_step c a event d l f body i _ s Hd Ha Hi Hcode).
      fold s1. by rewrite (bind_return _ _ _ _ _ Hrun).
    + rewrite Hcalls, Hc. simpl. by rewrite <- app_assoc.
Qed.

(** The loop for [n1 + n2] entries is the loop for [n1] followed by the
    loop for [n2]. *)
Lemma dispatch_loop_add this a event n1 n2 : ∀ i s,
  dispatch_loop code this a event i (n1 + n2) s
  = bind (dispatch_loop code this a event i n1)
         (λ _, dispatch_loop code this a event (i + n1) n2) s.
Proof.
  induction n1 as [|n1 IH]; intros i s.
  - simpl. unfold bind, ret. by rewrite Nat.add_0_r.
  - simpl. cbv [bind].
    destruct (array_get a i s) as [[f|e] s0]; [|done].
    destruct (nullish f); [done|].
    destruct (get_dispatcher_obj this s0) as [[d|e] s1]; [|done].
    destruct (invoke code f (_context d) [VPrim event] s1) as [[v|e] s2]; [|done].
    rewrite IH. unfold bind. by rewrite Nat.add_succ_r.
Qed.

(** X16: when the first callback of the list subscribes a callback for the
    event being delivered (and the other callbacks are well behaved), the
    delivery returns after invoking the entries the list had when it
    started, each once and in order; the callback subscribed meanwhile is
    at the end of the list and is not invoked by this delivery. *)
Theorem subscribe_during_delivery (context c m a : loc) cl (event : prim)
    (f : loc) (h : value) (gs : list loc) s :
  truthy_prim event = true → truthy h = true →
  attachment s context c m → clients s !! c = Some cl →
  default ∅ (objects s !! m) !! to_string event = Some a →
  arrays s !! a = Some (VObj <$> (f :: gs)) →
  code f = Some (subscribing_callback h) →
  Forall (well_behaved code c a) gs →
  ∃ s', handleMessage code (VObj c) event (PStr "") s = (Return tt, s') ∧
        calls s' = calls s ++ ((λ g, Call g (VObj context) [VPrim event]) <$> (f :: gs)) ∧
        arrays s' !! a = Some ((VObj <$> (f :: gs)) ++ [h]).
Proof.
  intros He Hh [Hctx Hcli] Hcl Hp Ha Hcode Hwb.
  set (d := Dispatcher m undefined (VObj context)) in *.
  set (this := Dispatcher m (VObj c) (VObj context)) in *.
  set (s0 := set_calls (λ cs, cs ++ [Call f (VObj context) [VPrim event]]) s).
  set (l := VObj <$> (f :: gs)) in *.
  set (s1 := set_clients (insert c (push_request cl (Subscribe event)))
               (set_arrays (insert a (l ++ [h])) s0)).
  assert (subscribing_callback h (VObj context) [VPrim event] s0 = (Return undefined, s1))
    as Hbody.
  { unfold subscribing_callback.
    rewrite (bind_return _ _ _ _ _ (get_dispatcher_obj_run context this s0 Hctx)).
    cbn [arg_event].
    by rewrite (bind_return _ _ _ _ _
                  (subscribe_present this event h s0 c cl a l He Hh eq_refl Hcl Hp Ha)). }
  destruct (dispatch_loop_range c a event d (l ++ [h]) gs 1 s1 Hwb)
    as (s' & Hloop & Hcalls & Harr & _).
  { exact Hcli. }
  { subst s1. cbn [arrays set_clients set_arrays]. apply lookup_insert_eq. }
  { subst l. rewrite fmap_cons.
    change (take (length gs) ((VObj <$> gs) ++ [h]) = VObj <$> gs).
    apply take_app_length'. by rewrite length_fmap. }
  exists s'. split; [|split; [|done]].
  - rewrite (handleMessage_enters_loop code c a event d l s He Hcli Hp Ha).
    replace (length l) with (S (length gs)) by (subst l; by rewrite length_fmap).
    rewrite (dispatch_loop_step c a event d l f _ 0 _ s Hcli Ha eq_refl Hcode).
    change (_context d) with (VObj context). fold s0.
    by rewrite (bind_return _ _ _ _ _ Hbody).
  - rewrite Hcalls. subst s1 s0. cbn [calls set_clients set_arrays set_calls].
    rewrite fmap_cons. by rewrite <- app_assoc.
Qed.

(** X17: when the first callback of the list unsubscribes itself from the
    event being delivered, the array shrinks under the loop: the entry that
    followed it is skipped, the entries after that one are invoked (being
    well behaved), and the delivery then raises a TypeError on the index
    past the end of the array. *)
Theorem unsubscribe_during_delivery (context c m a : loc) cl (event : prim)
    (f g : loc) (gs : list loc) s :
  truthy_prim event = true →
  attachment s context c m → clients s !! c = Some cl →
  default ∅ (objects s !! m) !! to_string event = Some a →
  arrays s !! a = Some (VObj <$> (f :: g :: gs)) →
  f ∉ g :: gs →
  code f = Some (unsubscribing_callback f) →
  Forall (well_behaved code c a) gs →
  ∃ s', handleMessage code (VObj c) event (PStr "") s = (Throw TypeError, s') ∧
        calls s' = calls s ++ ((λ g, Call g (VObj context) [VPrim event]) <$> (f :: gs)) ∧
        arrays s' !! a = Some (VObj <$> (g :: gs)).
Proof.
  intros He [Hctx Hcli] Hcl Hp Ha Hnotin Hcode Hwb.
  set (d := Dispatcher m undefined (VObj context)) in *.
  set (this := Dispatcher m (VObj c) (VObj context)) in *.
  set (s0 := set_calls (λ cs, cs ++ [Call f (VObj context) [VPrim event]]) s).
  set (l := VObj <$> (f :: g :: gs)) in *.
  set (s1 := set_arrays (insert a (VObj <$> (g :: gs))) s0).
  assert (filter (λ v, v ≠ VObj f) l = VObj <$> (g :: gs)) as Hfilter.
  { subst l. rewrite filter_objects.
    rewrite filter_cons_False by (intros H; by apply H).
    by rewrite (filter_keeps_all f (g :: gs) Hnotin). }
  assert (unsubscribing_callback f (VObj context) [VPrim event] s0 = (Return undefined, s1))
    as Hbody.
  { unfold unsubscribing_callback.
    rewrite (bind_return _ _ _ _ _ (get_dispatcher_obj_run context this s0 Hctx)).
    cbn [arg_event].
    pose proof (unsubscribe_present this event (VObj f) s0 c cl a l He eq_refl eq_refl
                  Hcl Hp Ha) as Hun.
    rewrite Hfilter in Hun. rewrite fmap_cons in Hun. cbn zeta iota in Hun.
    rewrite <- fmap_cons in Hun. fold s1 in Hun.
    by rewrite (bind_return _ _ _ _ _ Hun). }
  assert (arrays s1 !! a = Some (VObj <$> (g :: gs))) as Ha1.
  { subst s1. cbn [arrays set_arrays]. apply lookup_insert_eq. }
  destruct (dispatch_loop_range c a event d (VObj <$> (g :: gs)) gs 1 s1 Hwb)
    as (s' & Hloop & Hcalls & Harr & Hdisp).
  { exact Hcli. }
  { exact Ha1. }
  { rewrite fmap_cons. change (take (length gs) (VObj <$> gs) = VObj <$> gs).
    apply take_ge. by rewrite length_fmap. }
  exists s'. split; [|split; [|done]].
  - rewrite (handleMessage_enters_loop code c a event d l s He Hcli Hp Ha).
    replace (length l) with (S (length gs + 1))
      by (subst l; rewrite length_fmap; simpl; lia).
    rewrite (dispatch_loop_step c a event d l f _ 0 _ s Hcli Ha eq_refl Hcode).
    change (_context d) with (VObj context). fold s0.
    rewrite (bind_return _ _ _ _ _ Hbody).
    rewrite dispatch_loop_add. rewrite (bind_return _ _ _ _ _ Hloop).
    cbn [dispatch_loop]. unfold bind, array_get, gets. rewrite Harr. cbn [default].
    rewrite lookup_ge_None_2; [done|]. unfold id. rewrite length_fmap. cbn [length]. lia.
  - rewrite Hcalls. subst s1 s0. cbn [calls set_arrays set_calls].
    rewrite fmap_cons. by rewrite <- app_assoc.
Qed.

End Reentrancy.

Lemma subscribe_during_delivery_witness :
  ∃ s', handleMessage subscribing_code (VObj ctxA_client) (PStr "x") (PStr "") subscribed_state
        = (Return tt, s') ∧
        calls s' = [Call 2 ctxA [VPrim (PStr "x")]; Call 3 ctxA [VPrim (PStr "x")]] ∧
        arrays s' !! 7 = Some [cb1; cb2; cb2].
Proof.
  destruct (subscribe_during_delivery subscribing_code 1 ctxA_client ctxA_callbacks 7
              (Client (VPrim (PStr "6379")) (VPrim (PStr "localhost"))
                 (Options false_ null 5000 true)
                 [("error", LogError); ("message", HandleMessage)]
                 [Subscribe (PStr "x"); Subscribe (PStr "x")])
              (PStr "x") 2 cb2 [3] subscribed_state)
    as (s' & H1 & H2 & H3).
  - reflexivity.
  - reflexivity.
  - split; vm_compute; reflexivity.
  - vm_compute. reflexivity.
  - vm_compute. reflexivity.
  - vm_compute. reflexivity.
  - reflexivity.
  - repeat constructor. eexists. split; [reflexivity|].
    intros recv args s. by exists undefined, s.
  - exists s'. split; [exact H1|]. split; [|exact H3].
    rewrite H2. vm_compute. reflexivity.
Defined.

Lemma unsubscribe_during_delivery_witness :
  ∃ s', handleMessage unsubscribing_code (VObj ctxA_client) (PStr "x") (PStr "")
          subscribed_state
        = (Throw TypeError, s') ∧
        calls s' = [Call 2 ctxA [VPrim (PStr "x")]] ∧
        arrays s' !! 7 = Some [cb2].
Proof.
  destruct (unsubscribe_during_delivery unsubscribing_code 1 ctxA_client ctxA_callbacks 7
              (Client (VPrim (PStr "6379")) (VPrim (PStr "localhost"))
                 (Options false_ null 5000 true)
                 [("error", LogError); ("message", HandleMessage)]
                 [Subscribe (PStr "x"); Subscribe (PStr "x")])
              (PStr "x") 2 3 [] subscribed_state)
    as (s' & H1 & H2 & H3).
  - reflexivity.
  - split; vm_compute; reflexivity.
  - vm_compute. reflexivity.
  - vm_compute. reflexivity.
  - vm_compute. reflexivity.
  - apply not_elem_of_cons. split; [done|apply not_elem_of_nil].
  - reflexivity.
  - constructor.
  - exists s'. split; [exact H1|]. split; [|exact H3].
    rewrite H2. vm_compute. reflexivity.
Defined.

(** The two deliveries, run. *)
Example reentrant_deliveries :
  (handleMessage unsubscribing_code (VObj ctxA_client) (PStr "x") (PStr "")
     subscribed_state).1 = Throw TypeError ∧
  (handleMessage subscribing_code (VObj ctxA_client) (PStr "x") (PStr "")
     subscribed_state).1 = Return tt.
Proof. split; vm_compute; reflexivity. Qed.

(** ** attached, on what is not nullish *)

(** X18: on a context that is neither [undefined] nor [null], [attached]
    never raises, whatever the debug flag, and changes nothing; it answers
    [true] exactly when the context is an object whose [dispatcher]
    property holds an object ([false] for every primitive and after
    [detach], which leaves [null] there). *)
Theorem attached_not_nullish context s :
  nullish context = false →
  attached context s
  = (Return match context with
            | VObj o => truthy_slot (dispatchers s !! o)
            | VPrim _ => false
            end, s).
Proof.
  intros Hn. destruct context as [p|o]; [|apply attached_object].
  unfold attached, bind, gets.
  destruct (truthy (DEBUG_DISPATCHER s)), p as [| |[]|x]; simpl in *; try done;
    by destruct (negb (x =? "")).
Qed.

Lemma attached_not_nullish_witness :
  attached ctxA attached_state = (Return true, attached_state) ∧
  attached ctxA started = (Return false, started) ∧
  attached (VPrim (PStr "socket")) attached_state = (Return false, attached_state).
Proof.
  split; [|split].
  - rewrite (attached_not_nullish ctxA attached_state eq_refl). vm_compute. reflexivity.
  - rewrite (attached_not_nullish ctxA started eq_refl). vm_compute. reflexivity.
  - apply (attached_not_nullish (VPrim (PStr "socket")) attached_state eq_refl).
Defined.


(** ** Events named like a member of Object.prototype *)

(** X20: for a truthy event that names a member of [Object.prototype] and
    has no list of its own, [unsubscribe] with a present callback changes
    no list and returns its [this]; it hands the connection [unsubscribe]
    when the member is a function of length 0 (as [toString] is), and hands
    it nothing otherwise (as for [hasOwnProperty]), although the event has
    no list. *)
Theorem unsubscribe_inherited this event callback s i :
  truthy_prim event = true → truthy callback = true →
  default ∅ (objects s !! _callbacks this) !! to_string event = None →
  Object_prototype !! to_string event = Some i →
  (i ≠ IFunction 0 → unsubscribe this event callback s = (Return (Some this), s)) ∧
  (i = IFunction 0 →
   ∀ c cl, _client this = VObj c → clients s !! c = Some cl →
     unsubscribe this event callback s
     = (Return (Some this),
        set_clients (insert c (push_request cl (Unsubscribe event))) s)).
Proof.
  intros He Hcb Hp Hproto.
  split.
  - intros Hi. unfold unsubscribe.
    rewrite (bind_return _ _ _ _ _ (debug_info_run _ s)). rewrite He, Hcb. simpl.
    cbv [bind get_property gets ret]. rewrite Hp, Hproto. simpl.
    destruct i as [[|n]|]; [done|done|done].
  - intros -> c cl Hc Hcl. unfold unsubscribe.
    rewrite (bind_return _ _ _ _ _ (debug_info_run _ s)). rewrite He, Hcb. simpl.
    cbv [bind get_property gets ret client_request]. rewrite Hp, Hproto. simpl.
    rewrite Hc. by rewrite Hcl.
Qed.

Lemma unsubscribe_inherited_witness :
  unsubscribe ctxA_dispatcher (PStr "hasOwnProperty") cb1 attached_state
  = (Return (Some ctxA_dispatcher), attached_state) ∧
  requests_of (unsubscribe ctxA_dispatcher (PStr "toString") cb1 attached_state).2 ctxA_client
  = [Unsubscribe (PStr "toString")].
Proof.
  split.
  - apply (unsubscribe_inherited ctxA_dispatcher (PStr "hasOwnProperty") cb1 attached_state
             (IFunction 1)); [reflexivity|reflexivity|vm_compute; reflexivity
                             |vm_compute; reflexivity|discriminate].
  - destruct (unsubscribe_inherited ctxA_dispatcher (PStr "toString") cb1 attached_state
                (IFunction 0)) as [_ H];
      [reflexivity|reflexivity|vm_compute; reflexivity|vm_compute; reflexivity|].
    rewrite (H eq_refl ctxA_client
               (Client (VPrim (PStr "6379")) (VPrim (PStr "localhost"))
                  (Options false_ null 5000 true)
                  [("error", LogError); ("message", HandleMessage)] []));
      [|reflexivity|vm_compute; reflexivity].
    vm_compute. reflexivity.
Defined.

Section InheritedDelivery.

Variable code : loc → option (value → list value → M value).

(** X21: a delivery, on the connection of an attached context, of a truthy
    event that names a member of [Object.prototype] and has no list of its
    own, with an empty payload, invokes nothing and changes nothing; it
    raises a TypeError when the member is a function with at least one
    parameter (as [constructor] is) and returns otherwise. *)
Theorem handleMessage_inherited (c : loc) (d : dispatcher) (event : prim) s i :
  truthy_prim event = true →
  dispatchers s !! c = Some (SObj d) →
  default ∅ (objects s !! _callbacks d) !! to_string event = None →
  Object_prototype !! to_string event = Some i →
  handleMessage code (VObj c) event (PStr "") s
  = (match i with
     | IFunction (S _) => Throw TypeError
     | _ => Return tt
     end, s).
Proof.
  intros He Hd Hp Hproto. unfold handleMessage.
  rewrite (bind_return _ _ _ _ _ (debug_info_run _ s)). rewrite He. simpl.
  cbv [bind get_dispatcher_obj get_dispatcher get_property gets ret].
  rewrite Hd. simpl. rewrite Hp, Hproto. simpl.
  destruct i as [[|n]|]; simpl; by rewrite (debug_info_run _ s).
Qed.

End InheritedDelivery.

Lemma handleMessage_inherited_witness :
  handleMessage silent_code (VObj ctxA_client) (PStr "constructor") (PStr "") attached_state
  = (Throw TypeError, attached_state) ∧
  handleMessage silent_code (VObj ctxA_client) (PStr "toString") (PStr "") attached_state
  = (Return tt, attached_state).
Proof.
  split.
  - apply (handleMessage_inherited silent_code ctxA_client
             (Dispatcher ctxA_callbacks undefined ctxA) (PStr "constructor") attached_state
             (IFunction 1)); vm_compute; reflexivity.
  - apply (handleMessage_inherited silent_code ctxA_client
             (Dispatcher ctxA_callbacks undefined ctxA) (PStr "toString") attached_state
             (IFunction 0)); vm_compute; reflexivity.
Defined.
